(** * support-ai: backend registry, session memory and timed cache

    A shallow embedding of

    - [lib/model_manager.py]: the model factories, the module function
      [get_model] and the singleton [ModelManager];
    - [support_ai/lib/model_manager/openai_factory.py] and
      [llamacpp_factory.py]: the reworked factory constructors;
    - [lib/memory.py]: the per-session [Memory] manager;
    - the timed LRU cache that decorates
      [KnowledgeBaseSource.__get_summary] in
      [support_ai/lib/datasources/kb.py].

    Python dictionaries are finite maps, exceptions are the left summand
    of a sum, and code that mutates an object threads that object's state
    explicitly; a raise keeps the mutations made before it. *)

From Stdlib Require Import ZArith Lia.
From stdpp Require Import gmap strings list fin_maps.

Open Scope string_scope.
Open Scope list_scope.
Open Scope nat_scope.

(** ** Python values and exceptions *)

(** The scalar values a YAML configuration puts under the keys read here:
    a string, or [None] for a key written without a value. *)
Inductive value : Type :=
  | PyNone
  | PyStr (s : string).

#[global] Instance value_eq_dec : EqDecision value.
Proof. solve_decision. Defined.

Definition value_to_option (v : value) : option string :=
  match v with PyNone => None | PyStr s => Some s end.

Definition value_of_option (o : option string) : value :=
  match o with None => PyNone | Some s => PyStr s end.

#[global] Instance value_countable : Countable value.
Proof.
  apply (inj_countable' value_to_option value_of_option).
  intros []; reflexivity.
Defined.

(** [bool(v)]: [None] and the empty string are falsy. *)
Definition truthy (v : value) : bool :=
  match v with
  | PyNone => false
  | PyStr s => negb (String.eqb s "")
  end.

(** [str(v)], as an f-string renders it. *)
Definition str (v : value) : string :=
  match v with
  | PyNone => "None"
  | PyStr s => s
  end.

Abbreviation dict := (gmap string value).

Inductive exn : Type :=
  | ValueError (msg : string)
  | KeyError (key : string).

Abbreviation result A := (exn + A)%type.

Definition is_ValueError {A} (r : result A) : bool :=
  match r with inl (ValueError _) => true | _ => false end.

Definition raises {A} (r : result A) : bool :=
  match r with inl _ => true | inr _ => false end.

(** [d[k]] *)
Definition getitem (d : dict) (k : string) : result value :=
  match d !! k with
  | Some v => inr v
  | None => inl (KeyError k)
  end.

Definition dquote : string := String (Ascii.ascii_of_nat 34) EmptyString.

(** ** The configuration keys

    [lib/const.py] is not part of the sources at hand: the names it
    exports are taken as parameters. *)
Class Const : Type := {
  CONFIG_LLMS : string;
  CONFIG_NAME : string;
  CONFIG_TYPE : string;
  CONFIG_MODEL : string;
  CONFIG_LLM : string;
  CONFIG_EMBEDDINGS : string;
  CONFIG_HUGGINGFACE_PIPELINE : string;
  CONFIG_LLAMACPP : string;
  CONFIG_OLLAMA : string;
  CONFIG_OPENAI : string;
  CONFIG_LLM_OPENAI_API_KEY : string;
  CONFIG_DB_CONNECTION : string
}.

(** ** The provider constructors

    The langchain classes are external: a call to one of them is
    recorded with its arguments, and the object it returns is identified
    by the position of the call in the record. *)
Inductive provider_call : Type :=
  | HuggingFacePipeline_from_model_id (model_id : value) (task : string)
  | LlamaCpp (model_path : value) (n_ctx : Z)
  | ChatOllama (model : value)
  | OpenAI (openai_api_key model_name : value)
  | HuggingFaceEmbeddings (model_name : value)
  | LlamaCppEmbeddings (model_path : value) (n_ctx : Z)
  | OllamaEmbeddings (model : value)
  | OpenAIEmbeddings (model openai_api_key : value).

Definition is_llm_call (c : provider_call) : bool :=
  match c with
  | HuggingFacePipeline_from_model_id _ _ | LlamaCpp _ _
  | ChatOllama _ | OpenAI _ _ => true
  | _ => false
  end.

(** A handle is the identity of a constructed provider object. *)
Abbreviation handle := nat (only parsing).

(** ** [lib/model_manager.py] *)
Module model_manager.

(** An instance of one of the four [ModelFactory] subclasses, with the
    attributes its [__init__] sets. *)
Inductive ModelFactory : Type :=
  | HuggingFaceFactory (model : value)
  | LlamaCppFactory (model : value)
  | OllamaFactory (model : value)
  | OpenAIFactory (model api_key : value).

Section factories.
Context {C : Const}.

Definition HuggingFaceFactory_init (llm_config : dict) : result ModelFactory :=
  match getitem llm_config CONFIG_MODEL with
  | inl e => inl e
  | inr model =>
      if negb (truthy model)
      then inl (ValueError "Missing model in llm config")
      else inr (HuggingFaceFactory model)
  end.

Definition LlamaCppFactory_init (llm_config : dict) : result ModelFactory :=
  match getitem llm_config CONFIG_MODEL with
  | inl e => inl e
  | inr model =>
      if negb (truthy model)
      then inl (ValueError "Missing model in llm config")
      else inr (LlamaCppFactory model)
  end.

Definition OllamaFactory_init (config : dict) : result ModelFactory :=
  match getitem config CONFIG_MODEL with
  | inl e => inl e
  | inr model =>
      if negb (truthy model)
      then inl (ValueError "Missing model in llm config")
      else inr (OllamaFactory model)
  end.

Definition OpenAIFactory_init (llm_config : dict) : result ModelFactory :=
  match getitem llm_config CONFIG_MODEL with
  | inl e => inl e
  | inr model =>
      match getitem llm_config CONFIG_LLM_OPENAI_API_KEY with
      | inl e => inl e
      | inr api_key =>
          if negb (truthy api_key)
          then inl (ValueError "Missing api_key in llm config")
          else inr (OpenAIFactory model api_key)
      end
  end.

Definition create_llm (f : ModelFactory) : provider_call :=
  match f with
  | HuggingFaceFactory model =>
      HuggingFacePipeline_from_model_id model "text-generation"
  | LlamaCppFactory model => LlamaCpp model 4096
  | OllamaFactory model => ChatOllama model
  | OpenAIFactory model api_key => OpenAI api_key model
  end.

Definition create_embeddings (f : ModelFactory) : provider_call :=
  match f with
  | HuggingFaceFactory model => HuggingFaceEmbeddings model
  | LlamaCppFactory model => LlamaCppEmbeddings model 4096
  | OllamaFactory model => OllamaEmbeddings model
  | OpenAIFactory model api_key => OpenAIEmbeddings model api_key
  end.

(** The dictionary literal of [get_model]: a later key replaces an
    equal earlier one. *)
Definition factories : gmap value (dict → result ModelFactory) :=
  <[PyStr CONFIG_OPENAI := OpenAIFactory_init]>
  (<[PyStr CONFIG_OLLAMA := OllamaFactory_init]>
  (<[PyStr CONFIG_LLAMACPP := LlamaCppFactory_init]>
  (<[PyStr CONFIG_HUGGINGFACE_PIPELINE := HuggingFaceFactory_init]> ∅))).

(** The module-level [get_model(llm_config)]. *)
Definition get_model (llm_config : dict) : result ModelFactory :=
  match llm_config !! CONFIG_TYPE with
  | None =>
      inl (ValueError ("The llm config doesn't contain " +:+ CONFIG_TYPE))
  | Some ty =>
      match factories !! ty with
      | None => inl (ValueError ("Unknown llm type: " +:+ str ty))
      | Some init => init llm_config
      end
  end.

End factories.

(** The dataclass [Model]. *)
Record Model : Type := {
  llm : option handle;
  embeddings : option handle
}.

(** One value of [self.__models]: the dictionary with the keys
    [LLM_CONFIG], [LLM_INST] and [EMBEDDINGS_INST]. *)
Record entry : Type := {
  LLM_CONFIG : dict;
  LLM_INST : option handle;
  EMBEDDINGS_INST : option handle
}.

Abbreviation registry := (gmap value entry).

(** What a call of [ModelManager.get_model] can read and change: the
    [__models] dictionary of the instance and the record of the provider
    constructor calls made so far, each tagged with the registered name
    it was made for. *)
Record mm : Type := {
  models : registry;
  ctor_log : list (value * provider_call)
}.

(** State and exceptions: a raise returns the state reached so far. *)
Definition M (A : Type) : Type := mm → result A * mm.

Definition ret {A} (a : A) : M A := λ st, (inr a, st).

Definition raise {A} (e : exn) : M A := λ st, (inl e, st).

Definition bind {A B} (c : M A) (k : A → M B) : M B :=
  λ st, match c st with
        | (inl e, st') => (inl e, st')
        | (inr a, st') => k a st'
        end.

Definition lift {A} (r : result A) : M A :=
  match r with inl e => raise e | inr a => ret a end.

Declare Scope mm_scope.
Delimit Scope mm_scope with mm.
Notation "'let*' x ':=' c 'in' k" := (bind c (λ x, k))
  (at level 10, x name, c at level 100, k at level 200) : mm_scope.
Notation "c ';;' k" := (bind c (λ _, k))
  (at level 100, k at level 200, right associativity) : mm_scope.

(** A provider constructor is called: the new object is identified by
    its position in the record. *)
Definition construct (name : value) (c : provider_call) : M handle :=
  λ st, (inr (length (ctor_log st)),
         {| models := models st; ctor_log := ctor_log st ++ [(name, c)] |}).

Definition set_LLM_INST (h : handle) (e : entry) : entry :=
  {| LLM_CONFIG := LLM_CONFIG e; LLM_INST := Some h;
     EMBEDDINGS_INST := EMBEDDINGS_INST e |}.

Definition set_EMBEDDINGS_INST (h : handle) (e : entry) : entry :=
  {| LLM_CONFIG := LLM_CONFIG e; LLM_INST := LLM_INST e;
     EMBEDDINGS_INST := Some h |}.

(** [self.__models[name][...] = h] *)
Definition update_entry (f : entry → entry) (name : value) : M unit :=
  λ st, (inr tt,
         {| models := alter f name (models st); ctor_log := ctor_log st |}).

Module ModelManager.
Section ModelManager.
Context {C : Const}.

(** The loop of [__new__] over [config[CONFIG_LLMS]]. *)
Fixpoint new_loop (llms : list dict) (models : registry) : result registry :=
  match llms with
  | [] => inr models
  | llm :: rest =>
      match llm !! CONFIG_NAME with
      | None =>
          inl (ValueError ("The llm doesn't contain " +:+ CONFIG_NAME))
      | Some name =>
          match models !! name with
          | Some _ => inl (ValueError ("Duplicated llm name " +:+ str name))
          | None =>
              new_loop rest
                (<[name := {| LLM_CONFIG := llm; LLM_INST := None;
                              EMBEDDINGS_INST := None |}]> models)
          end
      end
  end.

(** [ModelManager(config)], on the class attribute [__instance].  The
    class keeps the only instance that is ever returned, so the instance
    is given by its [__models]; an instance under construction is
    dropped when [__new__] raises. *)
Definition new (config : gmap string (list dict)) (instance : option registry)
  : result registry * option registry :=
  match instance with
  | None =>
      match config !! CONFIG_LLMS with
      | None =>
          (inl (ValueError ("The config doesn't contain " +:+ CONFIG_LLMS)),
           None)
      | Some llms =>
          match new_loop llms ∅ with
          | inl e => (inl e, None)
          | inr self => (inr self, Some self)
          end
      end
  | Some self => (inr self, Some self)
  end.

Definition not_named (name : value) : exn :=
  ValueError
    ("The llms doesn't contain a llm named " +:+ dquote +:+ str name
       +:+ dquote).

(** [get_model(self, config)]: the two halves, then the method. *)
Definition get_llm (config : dict) : M (option handle) :=
  (match config !! CONFIG_LLM with
   | None => ret None
   | Some llm_name => λ st,
       match models st !! llm_name with
       | None => raise (not_named llm_name) st
       | Some e =>
           match LLM_INST e with
           | Some h => ret (Some h) st
           | None =>
               (let* f := lift (get_model (LLM_CONFIG e)) in
                let* h := construct llm_name (create_llm f) in
                update_entry (set_LLM_INST h) llm_name;;
                ret (Some h)) st
           end
       end
   end)%mm.

Definition get_embeddings (config : dict) : M (option handle) :=
  (match config !! CONFIG_EMBEDDINGS with
   | None => ret None
   | Some embeddings_name => λ st,
       match models st !! embeddings_name with
       | None => raise (not_named embeddings_name) st
       | Some e =>
           match EMBEDDINGS_INST e with
           | Some h => ret (Some h) st
           | None =>
               (let* f := lift (get_model (LLM_CONFIG e)) in
                let* h := construct embeddings_name (create_embeddings f) in
                update_entry (set_EMBEDDINGS_INST h) embeddings_name;;
                ret (Some h)) st
           end
       end
   end)%mm.

Definition get_model (config : dict) : M Model :=
  (let* l := get_llm config in
   let* e := get_embeddings config in
   ret {| llm := l; embeddings := e |})%mm.

(** A sequential execution: the requests are served one after the
    other, a failed one leaving the state it reached. *)
Fixpoint run (reqs : list dict) (st : mm) : list (result Model) * mm :=
  match reqs with
  | [] => ([], st)
  | config :: rest =>
      let (r, st') := get_model config st in
      let (rs, st'') := run rest st' in
      (r :: rs, st'')
  end.

End ModelManager.
End ModelManager.

End model_manager.

(** ** [support_ai/lib/model_manager]: the reworked factories *)
Module support_ai.

Module llamacpp_factory.
Section llamacpp_factory.
Context {C : Const}.

Definition LlamaCppFactory_init (llm_config : dict)
  : result model_manager.ModelFactory :=
  match getitem llm_config CONFIG_MODEL with
  | inl e => inl e
  | inr model =>
      if negb (truthy model)
      then inl (ValueError ("Missing " +:+ CONFIG_MODEL +:+ " in llm config"))
      else inr (model_manager.LlamaCppFactory model)
  end.

End llamacpp_factory.
End llamacpp_factory.

Module openai_factory.
Section openai_factory.
Context {C : Const}.

Definition OpenAIFactory_init (llm_config : dict)
  : result model_manager.ModelFactory :=
  match getitem llm_config CONFIG_MODEL with
  | inl e => inl e
  | inr model =>
      if negb (truthy model)
      then inl (ValueError ("Missing " +:+ CONFIG_MODEL +:+ " in llm config"))
      else
        match getitem llm_config CONFIG_LLM_OPENAI_API_KEY with
        | inl e => inl e
        | inr api_key =>
            if negb (truthy api_key)
            then inl (ValueError
                        ("Missing " +:+ CONFIG_LLM_OPENAI_API_KEY
                           +:+ " in llm config"))
            else inr (model_manager.OpenAIFactory model api_key)
        end
  end.

End openai_factory.
End openai_factory.

End support_ai.

(** ** [lib/memory.py] *)
Module memory.

Inductive message : Type :=
  | SystemMessage (content : string)
  | HumanMessage (content : string)
  | AIMessage (content : string).

(** A [ConversationSummaryBufferMemory] object: its identity, the
    session of the [MongoDBChatMessageHistory] it is bound to, and the
    running summary it keeps in process. *)
Record SessionMemory : Type := {
  oid : nat;
  chat_memory : string;
  moving_summary_buffer : string
}.

(** The [Memory] object. *)
Record Memory : Type := {
  db_connection : value;
  session_memories : gmap string SessionMemory
}.

(** What lies outside the [Memory] object: the messages persisted per
    session under its connection, the sessions for which the
    [MongoDBChatMessageHistory] constructor was called, the number of
    objects allocated, and the number of invocations of the language
    model by [integrate]. *)
Record env : Type := {
  store : gmap string (list message);
  history_ctor : list string;
  allocated : nat;
  llm_calls : nat
}.

(** [MongoDBChatMessageHistory.messages] *)
Definition messages (e : env) (session : string) : list message :=
  default [] (store e !! session).

Section Memory.
Context {C : Const}.

(** The langchain collaborators, by their interface: the language model
    (its answer at its n-th invocation to a conversation), the history
    [load_memory_variables] returns for a running summary and the
    persisted messages, and the running summary after [save_context]. *)
Variable llm_invoke : nat → list message → string.
Variable load_memory_variables : string → list message → list message.
Variable prune : string → list message → string.

Definition init (config : dict) : result Memory :=
  match config !! CONFIG_DB_CONNECTION with
  | None =>
      inl (ValueError ("The config doesn't contain " +:+ CONFIG_DB_CONNECTION))
  | Some c => inr {| db_connection := c; session_memories := ∅ |}
  end.

(** [__get_session_memory] *)
Definition get_session_memory (session : string) (st : Memory * env)
  : SessionMemory * (Memory * env) :=
  let (self, e) := st in
  match session_memories self !! session with
  | Some m => (m, st)
  | None =>
      let m := {| oid := allocated e; chat_memory := session;
                  moving_summary_buffer := "" |} in
      (m,
       ({| db_connection := db_connection self;
           session_memories := <[session := m]> (session_memories self) |},
        {| store := store e;
           history_ctor := (history_ctor e ++ [session])%list;
           allocated := S (allocated e);
           llm_calls := llm_calls e |}))
  end.

(** The conversation [integrate] sends to the language model. *)
Definition prompt (history : list message) (context query : string)
  : list message :=
  ([SystemMessage "You are a helpful chatbot"] ++ history ++
   [HumanMessage ("Based on the context: " +:+ context +:+ ", " +:+ query)])%list.

(** [memory.save_context({'input': query}, {'output': output})]: the
    two messages are appended to the persisted history of the session
    the object is bound to, and the object updates its running
    summary. *)
Definition save_context (session : string) (m : SessionMemory)
    (query output : string) (st : Memory * env) : Memory * env :=
  let (self, e) := st in
  let msgs :=
    (messages e (chat_memory m) ++ [HumanMessage query; AIMessage output])%list
  in
  ({| db_connection := db_connection self;
      session_memories :=
        <[session := {| oid := oid m; chat_memory := chat_memory m;
                        moving_summary_buffer :=
                          prune (moving_summary_buffer m) msgs |}]>
          (session_memories self) |},
   {| store := <[chat_memory m := msgs]> (store e);
      history_ctor := history_ctor e;
      allocated := allocated e;
      llm_calls := llm_calls e |}).

Definition integrate (session query context : string) (st : Memory * env)
  : string * (Memory * env) :=
  let (m, st1) := get_session_memory session st in
  let (self1, e1) := st1 in
  let history :=
    load_memory_variables (moving_summary_buffer m)
      (messages e1 (chat_memory m)) in
  let integrated_context :=
    llm_invoke (llm_calls e1) (prompt history context query) in
  let e2 := {| store := store e1; history_ctor := history_ctor e1;
               allocated := allocated e1; llm_calls := S (llm_calls e1) |} in
  (integrated_context,
   save_context session m query integrated_context (self1, e2)).

(** The exception pydantic raises when a required field of a model is
    not given. *)
Inductive ValidationError : Type :=
  | field_required (field : string).

(** [ConversationSummaryBufferMemory(chat_memory=..., llm=...)]: the
    language model is a required field of the langchain class, and the
    constructor raises when it is not given. *)
Definition ConversationSummaryBufferMemory (id : nat) (history : string)
    (llm : option (nat → list message → string))
  : ValidationError + SessionMemory :=
  match llm with
  | Some _ =>
      inr {| oid := id; chat_memory := history; moving_summary_buffer := "" |}
  | None => inl (field_required "llm")
  end.

(** [clear]: a history object is built for the session, then a buffer
    memory around it, without the [llm] that [__get_session_memory]
    passes; the buffer memory's [clear] would delete the persisted
    messages of the session, and the cached object would be dropped if
    there is one. *)
Definition clear (session : string) (st : Memory * env)
  : (ValidationError + unit) * (Memory * env) :=
  let (self, e) := st in
  let e1 := {| store := store e;
               history_ctor := (history_ctor e ++ [session])%list;
               allocated := allocated e;
               llm_calls := llm_calls e |} in
  match ConversationSummaryBufferMemory (allocated e1) session None with
  | inl err => (inl err, (self, e1))
  | inr m =>
      (inr tt,
       ({| db_connection := db_connection self;
           session_memories := delete session (session_memories self) |},
        {| store := delete (chat_memory m) (store e1);
           history_ctor := history_ctor e1;
           allocated := S (allocated e1);
           llm_calls := llm_calls e1 |}))
  end.

End Memory.
End memory.

(** ** The timed LRU cache

    [support_ai/lib/utils/lru.py], which defines the decorator
    [timed_lru_cache] applied to [__get_summary], is not among the
    sources: the cache is the one the specification describes. *)
Module lru.
Section lru.
Context {K V : Type} `{EqDecision K}.

(** Modelled from the spec: the [CacheEntry] of the data model of the
    missing [utils/lru.py], [{key, value, created_at, ttl}]. *)
Record CacheEntry : Type := {
  key : K;
  value : V;
  created_at : Z;
  ttl : Z
}.

(** Modelled from the spec: the map of the missing [utils/lru.py],
    "ordered by recency for eviction purposes": the entries, most
    recently used first, with the number of times a [compute] function
    was invoked. *)
Record cache : Type := {
  entries : list CacheEntry;
  computed : nat
}.

(** Modelled from the spec: liveness in the missing [utils/lru.py], "a
    CacheEntry is visible to callers only while
    [now - created_at < ttl]". *)
Definition live (now : Z) (e : CacheEntry) : bool :=
  (now - created_at e <? ttl e)%Z.

Definition has_key (k : K) (e : CacheEntry) : bool :=
  bool_decide (key e = k).

Definition find_entry (k : K) (es : list CacheEntry) : option CacheEntry :=
  List.find (has_key k) es.

Definition remove_key (k : K) (es : list CacheEntry) : list CacheEntry :=
  List.filter (λ e, negb (has_key k e)) es.

(** Modelled from the spec: eviction in the missing [utils/lru.py],
    "evict the least-recently-used entry if the map exceeds
    [max_entries]". *)
Definition evict (max_entries : nat) (es : list CacheEntry)
  : list CacheEntry :=
  if Nat.ltb max_entries (length es) then removelast es else es.

(** Modelled from the spec: [get_or_compute] of the missing
    [utils/lru.py], "if a live (non-expired) entry exists for [key],
    return it without invoking [compute]; otherwise invoke [compute],
    store the result with the current timestamp, evict the
    least-recently-used entry if the map exceeds [max_entries], and
    return the fresh value".  The stored result takes the place of any
    entry of the key (at most one stored value per key), and a hit
    counts as a use. *)
Definition get_or_compute (now : Z) (k : K) (compute : unit → V)
    (ttl_ : Z) (max_entries : nat) (c : cache) : V * cache :=
  match find_entry k (entries c) with
  | Some e =>
      if live now e
      then (value e,
            {| entries := e :: remove_key k (entries c);
               computed := computed c |})
      else
        let v := compute tt in
        (v,
         {| entries :=
              evict max_entries
                ({| key := k; value := v; created_at := now; ttl := ttl_ |}
                   :: remove_key k (entries c));
            computed := S (computed c) |})
  | None =>
      let v := compute tt in
      (v,
       {| entries :=
            evict max_entries
              ({| key := k; value := v; created_at := now; ttl := ttl_ |}
                 :: remove_key k (entries c));
          computed := S (computed c) |})
  end.

(** Modelled from the spec: what a caller can see of the cache of the
    missing [utils/lru.py] at time [now], the value of the entry of the
    key if it is live. *)
Definition visible (now : Z) (k : K) (c : cache) : option V :=
  match find_entry k (entries c) with
  | Some e => if live now e then Some (value e) else None
  | None => None
  end.

End lru.
Arguments CacheEntry : clear implicits.
Arguments cache : clear implicits.
End lru.

(** ** [support_ai/lib/datasources/kb.py]: the cached summary *)
Module kb.

Definition SUMMARY_PROMPT (solution : string) : string :=
  "Write a concise summary of the following:
    " +:+ dquote +:+ solution +:+ dquote +:+ "
    CONCISE SUMMARY:".

Section KnowledgeBaseSource.
(** The language model of the source, and the parameters the decorator
    is applied with. *)
Variable model_llm : string → string.
Variable seconds : Z.
Variable maxsize : nat.

(** The body of [__get_summary]: the chain applied to [solution]. *)
Definition get_summary_body (solution : string) : string :=
  model_llm (SUMMARY_PROMPT solution).

(** [__get_summary], as decorated. *)
Definition get_summary (now : Z) (solution : string)
    (c : lru.cache string string) : string * lru.cache string string :=
  lru.get_or_compute now solution (λ _, get_summary_body solution)
    seconds maxsize c.

End KnowledgeBaseSource.
End kb.

(** ** Vocabulary of the statements *)

(** The keys as the sample configuration writes them, for the closed
    examples. *)
Definition example_const : Const := {|
  CONFIG_LLMS := "llms";
  CONFIG_NAME := "name";
  CONFIG_TYPE := "type";
  CONFIG_MODEL := "model";
  CONFIG_LLM := "llm";
  CONFIG_EMBEDDINGS := "embeddings";
  CONFIG_HUGGINGFACE_PIPELINE := "huggingface_pipeline";
  CONFIG_LLAMACPP := "llamacpp";
  CONFIG_OLLAMA := "ollama";
  CONFIG_OPENAI := "openai";
  CONFIG_LLM_OPENAI_API_KEY := "api_key";
  CONFIG_DB_CONNECTION := "db_connection"
|}.

(** Closed inputs for the examples. *)
Module examples.
Import model_manager.

Definition missing_model_config : dict :=
  <["api_key" := PyStr "sk-test"]> (<["model" := PyNone]>
    (<["type" := PyStr "openai"]> (<["name" := PyStr "remote"]> ∅))).

Definition local_llm : dict :=
  <["model" := PyStr "/models/7b.gguf"]> (<["type" := PyStr "llamacpp"]>
    (<["name" := PyStr "local"]> ∅)).

Definition remote_llm : dict :=
  <["api_key" := PyStr "sk-test"]> (<["model" := PyStr "gpt-4"]>
    (<["type" := PyStr "openai"]> (<["name" := PyStr "remote"]> ∅))).

(** A descriptor with a name and nothing else. *)
Definition bare_llm : dict := <["name" := PyStr "bare"]> ∅.

Definition example_config : gmap string (list dict) :=
  <["llms" := [local_llm; remote_llm]]> ∅.

Definition duplicate_config : gmap string (list dict) :=
  <["llms" := [local_llm; local_llm]]> ∅.

Definition absent_config : gmap string (list dict) := ∅.

Definition blank_entry (llm : dict) : entry :=
  {| LLM_CONFIG := llm; LLM_INST := None; EMBEDDINGS_INST := None |}.

Definition example_registry : registry :=
  <[PyStr "remote" := blank_entry remote_llm]>
    (<[PyStr "local" := blank_entry local_llm]> ∅).

Definition example_state : mm :=
  {| models := example_registry; ctor_log := [] |}.

Definition llm_request (name : string) : dict := <["llm" := PyStr name]> ∅.

Definition embeddings_request (name : string) : dict :=
  <["embeddings" := PyStr name]> ∅.

Definition both_request (llm_name embeddings_name : string) : dict :=
  <["embeddings" := PyStr embeddings_name]> (<["llm" := PyStr llm_name]> ∅).

(** A manager as [Memory.__init__] leaves it, an empty database, and
    collaborators that answer with a fixed text, load the persisted
    messages as they are and keep the running summary. *)
Definition example_memory : memory.Memory :=
  {| memory.db_connection := PyStr "mongodb://localhost:27017";
     memory.session_memories := ∅ |}.

Definition example_env : memory.env :=
  {| memory.store := ∅; memory.history_ctor := [];
     memory.allocated := 0; memory.llm_calls := 0 |}.

Definition example_llm (n : nat) (conversation : list memory.message)
  : string := "X is a letter".

Definition example_load (summary : string) (msgs : list memory.message)
  : list memory.message := msgs.

Definition example_prune (summary : string) (msgs : list memory.message)
  : string := summary.

(** A cache that holds one summary, computed at time 0 and valid for
    10 time units. *)
Definition warm_cache : lru.cache string string :=
  {| lru.entries :=
       [{| lru.key := "article"; lru.value := "old summary";
           lru.created_at := 0; lru.ttl := 10 |}];
     lru.computed := 1 |}.

End examples.

Module registry_spec.
Import model_manager.
Section registry_spec.
Context {C : Const}.

(** The names of the descriptors that have one, in order. *)
Definition names (llms : list dict) : list value :=
  omap (λ llm : dict, llm !! CONFIG_NAME) llms.

Definition named (llm : dict) : Prop := is_Some (llm !! CONFIG_NAME).

(** The constructor call counters: how many language models, and how
    many embedding models, were constructed for a registered name. *)
Definition llm_built (name : value) (log : list (value * provider_call)) : nat :=
  length (filter (λ ev, ev.1 = name ∧ is_llm_call ev.2 = true) log).

Definition embeddings_built (name : value)
    (log : list (value * provider_call)) : nat :=
  length (filter (λ ev, ev.1 = name ∧ is_llm_call ev.2 = false) log).

(** The cached handles and the stored descriptor of a name. *)
Definition llm_of (st : mm) (name : value) : option handle :=
  models st !! name ≫= LLM_INST.

Definition embeddings_of (st : mm) (name : value) : option handle :=
  models st !! name ≫= EMBEDDINGS_INST.

Definition config_of (st : mm) (name : value) : option dict :=
  LLM_CONFIG <$> models st !! name.

(** The counters agree with the cache: a handle is cached for a name
    exactly when one construction was made for it. *)
Definition counted (st : mm) : Prop :=
  ∀ name,
    llm_built name (ctor_log st)
      = match llm_of st name with Some _ => 1 | None => 0 end ∧
    embeddings_built name (ctor_log st)
      = match embeddings_of st name with Some _ => 1 | None => 0 end.

(** Descriptors are kept and cached handles are never replaced. *)
Definition kept (st st' : mm) : Prop :=
  (∀ name, config_of st' name = config_of st name) ∧
  (∀ name h, llm_of st name = Some h → llm_of st' name = Some h) ∧
  (∀ name h, embeddings_of st name = Some h → embeddings_of st' name = Some h).

(** Every backend a request names is registered with a descriptor its
    factory accepts. *)
Definition accepted (st : mm) (name : value) : Prop :=
  ∃ llm_config f,
    config_of st name = Some llm_config ∧ get_model llm_config = inr f.

Definition resolvable (st : mm) (config : dict) : Prop :=
  (∀ name, config !! CONFIG_LLM = Some name → accepted st name) ∧
  (∀ name, config !! CONFIG_EMBEDDINGS = Some name → accepted st name).

(** An entry whose two handles are still to be constructed. *)
Definition blank (e : entry) : Prop :=
  LLM_INST e = None ∧ EMBEDDINGS_INST e = None.

(** The state after a handle was constructed for [n] from the factory
    [f] and cached. *)
Definition built_llm (st : mm) (n : value) (f : ModelFactory) : mm :=
  {| models := alter (set_LLM_INST (length (ctor_log st))) n (models st);
     ctor_log := ctor_log st ++ [(n, create_llm f)] |}.

Definition built_embeddings (st : mm) (n : value) (f : ModelFactory) : mm :=
  {| models :=
       alter (set_EMBEDDINGS_INST (length (ctor_log st))) n (models st);
     ctor_log := ctor_log st ++ [(n, create_embeddings f)] |}.

(** The state of a freshly built registry. *)
Definition fresh (self : registry) : mm :=
  {| models := self; ctor_log := [] |}.

End registry_spec.
End registry_spec.

Module memory_spec.
Import memory.

(** Every cached object is bound to the history of its own session. *)
Definition wf (self : Memory) : Prop :=
  ∀ session m,
    session_memories self !! session = Some m → chat_memory m = session.

End memory_spec.

(** ** Further vocabulary: factories and handles *)
Module factory_spec.
Import model_manager.
Section factory_spec.
Context {C : Const}.

(** The attribute [model] of a factory. *)
Definition factory_model (f : ModelFactory) : value :=
  match f with
  | HuggingFaceFactory model | LlamaCppFactory model
  | OllamaFactory model | OpenAIFactory model _ => model
  end.

(** The key of the dictionary of [get_model] under which the class of a
    factory is written. *)
Definition factory_type (f : ModelFactory) : string :=
  match f with
  | HuggingFaceFactory _ => CONFIG_HUGGINGFACE_PIPELINE
  | LlamaCppFactory _ => CONFIG_LLAMACPP
  | OllamaFactory _ => CONFIG_OLLAMA
  | OpenAIFactory _ _ => CONFIG_OPENAI
  end.

Definition type_names : list string :=
  [CONFIG_HUGGINGFACE_PIPELINE; CONFIG_LLAMACPP; CONFIG_OLLAMA; CONFIG_OPENAI].

End factory_spec.
End factory_spec.

Module handle_spec.
Import model_manager registry_spec.
Section handle_spec.
Context {C : Const}.

(** A cached handle is the position, in the record of constructor
    calls, of a call made for its name and of its kind. *)
Definition handles_logged (st : mm) : Prop :=
  ∀ name h,
    (llm_of st name = Some h →
       ∃ c, ctor_log st !! h = Some (name, c) ∧ is_llm_call c = true) ∧
    (embeddings_of st name = Some h →
       ∃ c, ctor_log st !! h = Some (name, c) ∧ is_llm_call c = false).

(** Every constructor call was made for a registered name, with what
    the factory of that name's descriptor creates. *)
Definition from_descriptor (st : mm) : Prop :=
  ∀ name c, (name, c) ∈ ctor_log st →
    ∃ llm_config f,
      config_of st name = Some llm_config ∧
      get_model llm_config = inr f ∧
      (c = create_llm f ∨ c = create_embeddings f).

(** What a constructor call was made for: the name and the kind. *)
Definition call_key (ev : value * provider_call) : value * bool :=
  (ev.1, is_llm_call ev.2).

End handle_spec.
End handle_spec.

(** ** Further vocabulary: executions of the memory manager *)
Module memory_ops.
Import memory.

(** A call of one of the two public methods of [Memory]. *)
Inductive request : Type :=
  | Integrate (session query context : string)
  | Clear (session : string).

(** The persisted messages of one turn. *)
Definition turn (query answer : string) : list message :=
  [HumanMessage query; AIMessage answer].

Section memory_ops.
Variable llm_invoke : nat → list message → string.
Variable load_memory_variables : string → list message → list message.
Variable prune : string → list message → string.

Definition step (r : request) (st : Memory * env) : Memory * env :=
  match r with
  | Integrate session query context =>
      (integrate llm_invoke load_memory_variables prune
         session query context st).2
  | Clear session => (clear session st).2
  end.

(** The calls are made one after the other, a call that raises leaving
    the state it reached. *)
Definition exec (rs : list request) (st : Memory * env) : Memory * env :=
  fold_left (λ st r, step r st) rs st.

(** [integrate] called for one session with each (query, context) of a
    list, in order; the answers are collected. *)
Fixpoint integrate_all (session : string) (turns : list (string * string))
    (st : Memory * env) : list string * (Memory * env) :=
  match turns with
  | [] => ([], st)
  | (query, context) :: rest =>
      let (answer, st1) :=
        integrate llm_invoke load_memory_variables prune
          session query context st in
      let (answers, st2) := integrate_all session rest st1 in
      (answer :: answers, st2)
  end.

End memory_ops.

(** The cached objects are bound to their own sessions, were allocated
    before, and are pairwise different objects. *)
Definition sound (st : Memory * env) : Prop :=
  memory_spec.wf st.1 ∧
  (∀ session m,
     session_memories st.1 !! session = Some m → oid m < allocated st.2) ∧
  (∀ s1 s2 m1 m2,
     session_memories st.1 !! s1 = Some m1 →
     session_memories st.1 !! s2 = Some m2 →
     oid m1 = oid m2 → s1 = s2).

End memory_ops.

(** ** [support_ai/lib/datasources/kb.py]: authentication and the
    article query *)
Module kb_source.

(** The names of [support_ai/lib/const.py] that [kb.py] reads; the file
    is not part of the sources at hand, the names are parameters. *)
Class KbConst : Type := {
  CONFIG_AUTHENTICATION : string;
  CONFIG_USERNAME : string;
  CONFIG_PASSWORD : string;
  CONFIG_TOKEN : string
}.

(** [bool(s)] for a string. *)
Definition nonempty (s : string) : bool := negb (String.eqb s "").

Section kb_source.
Context {KC : KbConst}.

Definition get_authentication (auth_config : dict) : result dict :=
  match auth_config !! CONFIG_USERNAME with
  | None =>
      inl (ValueError ("The auth config doesn't contain " +:+ CONFIG_USERNAME))
  | Some username =>
      match auth_config !! CONFIG_PASSWORD with
      | None =>
          inl (ValueError
                 ("The auth config doesn't contain " +:+ CONFIG_PASSWORD))
      | Some password =>
          match auth_config !! CONFIG_TOKEN with
          | None =>
              inl (ValueError
                     ("The auth config doesn't contain " +:+ CONFIG_TOKEN))
          | Some token =>
              inr (<["security_token" := token]>
                     (<["password" := password]>
                        (<["username" := username]> ∅)))
          end
      end
  end.

(** Dates are [datetime.date] objects, used through [isoformat] only. *)
Variable date : Type.
Variable isoformat : date → string.

(** The list [conditions] of [__get_articles] before its loop. *)
Definition conditions (start_date end_date : option date) : list string :=
  match start_date with
  | Some d => ["LastModifiedDate >= " +:+ isoformat d +:+ "T00:00:00Z"]
  | None => []
  end ++
  match end_date with
  | Some d => ["LastModifiedDate < " +:+ isoformat d +:+ "T00:00:00Z"]
  | None => []
  end ++
  ["Knowledge_1_Approval_Status__c = 'Approval Complete'";
   "PublishStatus = 'Online'"].

(** The loop that builds [clause]. *)
Fixpoint build_clause (conditions : list string) (clause : string) : string :=
  match conditions with
  | [] => clause
  | condition :: rest =>
      let clause := if nonempty clause then clause +:+ " AND " else clause in
      build_clause rest (clause +:+ condition)
  end.

(** The query [__get_articles] passes to [query_all]. *)
Definition sql_cmd (start_date end_date : option date) : string :=
  let clause := build_clause (conditions start_date end_date) "" in
  ("SELECT Id, KnowledgeArticleId, Title, Summary " +:+ "FROM Knowledge__kav")
    +:+ (if nonempty clause then " WHERE " +:+ clause else "").

End kb_source.
End kb_source.

Module kb_examples_data.

Definition example_kb_const : kb_source.KbConst := {|
  kb_source.CONFIG_AUTHENTICATION := "authentication";
  kb_source.CONFIG_USERNAME := "username";
  kb_source.CONFIG_PASSWORD := "password";
  kb_source.CONFIG_TOKEN := "token"
|}.

Definition example_auth : dict :=
  <["token" := PyStr "t0k3n"]> (<["password" := PyStr "secret"]>
    (<["username" := PyStr "agent"]> (<["domain" := PyStr "test"]> ∅))).

End kb_examples_data.

(** Further closed inputs. *)
Module more_examples.
Import examples.

(** The two descriptors of [example_config], listed the other way
    round. *)
Definition swapped_config : gmap string (list dict) :=
  <["llms" := [remote_llm; local_llm]]> ∅.

(** The state after the language model of ["local"] was resolved. *)
Definition resolved_state : model_manager.mm :=
  registry_spec.built_llm example_state (PyStr "local")
    (model_manager.LlamaCppFactory (PyStr "/models/7b.gguf")).

Definition memory_config : dict :=
  <["db_connection" := PyStr "mongodb://localhost:27017"]> ∅.

Definition example_requests : list memory_ops.request :=
  [memory_ops.Integrate "s1" "What is X?" "X is defined as ...";
   memory_ops.Clear "s1";
   memory_ops.Integrate "s2" "What is Y?" "Y is defined as ..."].

End more_examples.

(** * Properties *)

(** ** The factories *)
Module factory_facts.
Import model_manager.
Section factory_facts.
Context {C : Const}.

Lemma create_llm_is_llm f : is_llm_call (create_llm f) = true.
Proof. by destruct f. Qed.

Lemma create_embeddings_is_embeddings f :
  is_llm_call (create_embeddings f) = false.
Proof. by destruct f. Qed.

(** The three local factories reject a model entry that is present
    but empty, and a missing one. *)
Lemma HuggingFaceFactory_needs_model llm_config :
  (∀ model, llm_config !! CONFIG_MODEL = Some model → truthy model = false →
     is_ValueError (HuggingFaceFactory_init llm_config) = true) ∧
  (llm_config !! CONFIG_MODEL = None →
     HuggingFaceFactory_init llm_config = inl (KeyError CONFIG_MODEL)).
Proof.
  unfold HuggingFaceFactory_init, getitem.
  split; [intros model -> -> | intros ->]; done.
Qed.

Lemma LlamaCppFactory_needs_model llm_config :
  (∀ model, llm_config !! CONFIG_MODEL = Some model → truthy model = false →
     is_ValueError (LlamaCppFactory_init llm_config) = true) ∧
  (llm_config !! CONFIG_MODEL = None →
     LlamaCppFactory_init llm_config = inl (KeyError CONFIG_MODEL)).
Proof.
  unfold LlamaCppFactory_init, getitem.
  split; [intros model -> -> | intros ->]; done.
Qed.

Lemma OllamaFactory_needs_model config :
  (∀ model, config !! CONFIG_MODEL = Some model → truthy model = false →
     is_ValueError (OllamaFactory_init config) = true) ∧
  (config !! CONFIG_MODEL = None →
     OllamaFactory_init config = inl (KeyError CONFIG_MODEL)).
Proof.
  unfold OllamaFactory_init, getitem.
  split; [intros model -> -> | intros ->]; done.
Qed.

(** So does the reworked remote factory, which checks the model before
    the key. *)
Lemma reworked_OpenAIFactory_needs_model llm_config :
  (∀ model, llm_config !! CONFIG_MODEL = Some model → truthy model = false →
     is_ValueError (support_ai.openai_factory.OpenAIFactory_init llm_config)
       = true) ∧
  (llm_config !! CONFIG_MODEL = None →
     support_ai.openai_factory.OpenAIFactory_init llm_config
       = inl (KeyError CONFIG_MODEL)).
Proof.
  unfold support_ai.openai_factory.OpenAIFactory_init, getitem.
  split; [intros model -> -> | intros ->]; done.
Qed.

(** Both remote factories reject an empty key. *)
Lemma OpenAIFactory_needs_api_key llm_config model api_key :
  llm_config !! CONFIG_MODEL = Some model → truthy model = true →
  llm_config !! CONFIG_LLM_OPENAI_API_KEY = Some api_key →
  truthy api_key = false →
  is_ValueError (OpenAIFactory_init llm_config) = true ∧
  is_ValueError (support_ai.openai_factory.OpenAIFactory_init llm_config)
    = true.
Proof.
  unfold OpenAIFactory_init, support_ai.openai_factory.OpenAIFactory_init,
    getitem.
  by intros -> -> -> ->.
Qed.

(** C4 (as the code has it).  The remote factory of
    [lib/model_manager.py] is constructed from a model entry that is
    [None] or empty as long as the key is given: unlike its three
    siblings and unlike its reworked version, it does not check the
    model identifier. *)
Theorem C4_OpenAIFactory_accepts_missing_model llm_config model api_key :
  llm_config !! CONFIG_MODEL = Some model → truthy model = false →
  llm_config !! CONFIG_LLM_OPENAI_API_KEY = Some api_key →
  truthy api_key = true →
  OpenAIFactory_init llm_config = inr (OpenAIFactory model api_key) ∧
  create_llm (OpenAIFactory model api_key) = OpenAI api_key model.
Proof.
  unfold OpenAIFactory_init, getitem.
  by intros -> _ -> ->.
Qed.

End factory_facts.

Lemma C4_OpenAIFactory_accepts_missing_model_witness :
  @OpenAIFactory_init example_const examples.missing_model_config
    = inr (OpenAIFactory PyNone (PyStr "sk-test")) ∧
  is_ValueError
    (@support_ai.openai_factory.OpenAIFactory_init example_const
       examples.missing_model_config) = true.
Proof.
  split.
  - apply (@C4_OpenAIFactory_accepts_missing_model example_const
             examples.missing_model_config PyNone (PyStr "sk-test"));
      vm_compute; reflexivity.
  - vm_compute; reflexivity.
Defined.

End factory_facts.

(** ** Building the registry *)
Module build_facts.
Import model_manager model_manager.ModelManager registry_spec.
Section build_facts.
Context {C : Const}.

Lemma names_cons_named llm llms name :
  llm !! CONFIG_NAME = Some name → names (llm :: llms) = name :: names llms.
Proof. intros H. unfold names. simpl. by rewrite H. Qed.

Lemma new_loop_error llms : ∀ acc e,
  new_loop llms acc = inl e → ∃ msg, e = ValueError msg.
Proof.
  induction llms as [|llm llms IH]; intros acc e; cbn [new_loop]; [done|].
  destruct (llm !! CONFIG_NAME) as [name|]; [|intros [= <-]; eauto].
  destruct (acc !! name); [intros [= <-]; eauto|]. apply IH.
Qed.

Lemma new_loop_succeeds llms : ∀ acc,
  (∃ self, new_loop llms acc = inr self) ↔
  Forall named llms ∧ NoDup (names llms) ∧
  ∀ name, name ∈ names llms → acc !! name = None.
Proof.
  induction llms as [|llm llms IH]; intros acc; cbn [new_loop].
  - split; [intros _|by eauto].
    split_and!; [constructor|constructor|]. intros name H.
    by apply elem_of_nil in H.
  - destruct (llm !! CONFIG_NAME) as [name|] eqn:Hname.
    + rewrite (names_cons_named _ _ _ Hname).
      destruct (acc !! name) as [old|] eqn:Hacc.
      * split; [by intros [? ?]|]. intros (_ & _ & Hfree).
        specialize (Hfree name (list_elem_of_here _ _)). congruence.
      * rewrite IH. split.
        -- intros (Hall & Hnd & Hfree). split_and!.
           ++ constructor; [by exists name|done].
           ++ constructor; [|done]. intros Hin.
              specialize (Hfree name Hin). by rewrite lookup_insert_eq in Hfree.
           ++ intros n [->|Hin]%elem_of_cons; [done|].
              specialize (Hfree n Hin).
              destruct (decide (name = n)) as [->|Hne].
              ** by rewrite lookup_insert_eq in Hfree.
              ** by rewrite lookup_insert_ne in Hfree.
        -- intros (Hall & Hnd & Hfree).
           apply Forall_cons in Hall as [_ Hall].
           apply NoDup_cons in Hnd as [Hnotin Hnd]. split_and!; [done..|].
           intros n Hin. rewrite lookup_insert_ne; [|by intros ->].
           apply Hfree. by right.
    + split; [by intros [? ?]|]. intros (Hall & _).
      apply Forall_cons in Hall as [[n Hn] _]. congruence.
Qed.

Lemma new_loop_blank llms : ∀ acc self,
  new_loop llms acc = inr self →
  (∀ name e, acc !! name = Some e → blank e) →
  ∀ name e, self !! name = Some e → blank e.
Proof.
  induction llms as [|llm llms IH]; intros acc self; cbn [new_loop].
  - by intros [= <-].
  - destruct (llm !! CONFIG_NAME) as [n|]; [|done].
    destruct (acc !! n) eqn:Hacc; [done|]. intros Hloop Hblank.
    apply (IH _ _ Hloop). intros name e.
    destruct (decide (n = name)) as [->|Hne].
    + rewrite lookup_insert_eq. by intros [= <-].
    + rewrite lookup_insert_ne; [|done]. apply Hblank.
Qed.

Lemma new_loop_dom llms : ∀ acc self,
  new_loop llms acc = inr self →
  ∀ name, is_Some (self !! name) ↔ is_Some (acc !! name) ∨ name ∈ names llms.
Proof.
  induction llms as [|llm llms IH]; intros acc self; cbn [new_loop].
  - intros [= <-] name. split; [by left|]. intros [|H]; [done|].
    by apply elem_of_nil in H.
  - destruct (llm !! CONFIG_NAME) as [n|] eqn:Hn; [|done].
    destruct (acc !! n) eqn:Hacc; [done|]. intros Hloop name.
    rewrite (IH _ _ Hloop), (names_cons_named _ _ _ Hn), elem_of_cons.
    destruct (decide (n = name)) as [->|Hne].
    + rewrite lookup_insert_eq. split; [by right; left|]. intros _. by left.
    + rewrite lookup_insert_ne; [|done]. split; [tauto|].
      intros [|[->|]]; tauto.
Qed.


Lemma new_blank (config : gmap string (list dict)) self cls :
  new config None = (inr self, cls) →
  ∀ name e, self !! name = Some e → blank e.
Proof.
  unfold new. destruct (config !! CONFIG_LLMS) as [llms|]; [|done].
  destruct (new_loop llms ∅) as [e|s] eqn:Hloop; [done|].
  intros [= <- _]. apply (new_loop_blank _ _ _ Hloop).
  intros name e. by rewrite lookup_empty.
Qed.

(** C3.  The first construction of the registry ([__instance] still
    [None]) raises [ValueError] and leaves [__instance] unset when the
    descriptor list is absent, when a descriptor has no name, or when
    the names are not pairwise distinct; when the list is present and
    every descriptor has a name different from the others, it returns
    the registry, whose keys are exactly those names, and records it as
    the instance. *)
Theorem C3_build_validation (config : gmap string (list dict)) :
  (config !! CONFIG_LLMS = None →
     is_ValueError (new config None).1 = true ∧ (new config None).2 = None) ∧
  (∀ llms, config !! CONFIG_LLMS = Some llms →
     (Exists (λ llm : dict, llm !! CONFIG_NAME = None) llms
      ∨ ¬ NoDup (names llms) →
        is_ValueError (new config None).1 = true ∧
        (new config None).2 = None) ∧
     (Forall named llms → NoDup (names llms) →
        ∃ self, new config None = (inr self, Some self) ∧
          ∀ name, is_Some (self !! name) ↔ name ∈ names llms)).
Proof.
  unfold new. split; [by intros ->|]. intros llms ->.
  destruct (new_loop llms ∅) as [e|self] eqn:Hloop; simpl.
  - split.
    + intros _. by destruct (new_loop_error _ _ _ Hloop) as [msg ->].
    + intros Hall Hnd.
      assert (∃ self, new_loop llms ∅ = inr self) as [self Hself].
      { apply new_loop_succeeds. split_and!; [done..|].
        intros. apply lookup_empty. }
      congruence.
  - assert (Forall named llms ∧ NoDup (names llms)) as [Hall Hnd].
    { assert (∃ s, new_loop llms ∅ = inr s) as H by eauto.
      apply new_loop_succeeds in H. tauto. }
    split.
    + intros [Hex|Hdup]; [|done]. exfalso.
      apply Exists_exists in Hex as (llm & Hin & Hnone).
      rewrite Forall_forall in Hall. destruct (Hall llm Hin) as [n Hn].
      congruence.
    + intros _ _. exists self. split; [done|]. intros name.
      rewrite (new_loop_dom _ _ _ Hloop), lookup_empty.
      split; [intros [[? [=]]|]; done|by right].
Qed.

(** C10.  Once a construction has succeeded, every later construction
    call, whatever configuration it is given, returns that instance and
    leaves the class attribute as it is: the new configuration is not
    looked at. *)
Theorem C10_singleton (config0 : gmap string (list dict)) self cls :
  new config0 None = (inr self, cls) →
  cls = Some self ∧
  ∀ config : gmap string (list dict), new config cls = (inr self, cls).
Proof.
  unfold new at 1. intros Hnew.
  assert (cls = Some self) as ->; [|done].
  destruct (config0 !! CONFIG_LLMS) as [llms|]; [|done].
  destruct (new_loop llms ∅); congruence.
Qed.

(** The instance is returned as the resolutions left it, also for a
    configuration whose own construction would raise. *)
Lemma new_again_ignores_config (self : registry)
    (config : gmap string (list dict)) :
  new config (Some self) = (inr self, Some self).
Proof. done. Qed.

End build_facts.
End build_facts.

(** ** Resolving names *)
Module resolve_facts.
Import model_manager registry_spec factory_facts.
Section resolve_facts.
Context {C : Const}.

Implicit Types (st : mm) (config : dict) (name : value).

(** *** Counting constructor calls *)

Lemma llm_built_app name (l1 l2 : list (value * provider_call)) :
  llm_built name (l1 ++ l2) = llm_built name l1 + llm_built name l2.
Proof. unfold llm_built. by rewrite filter_app, length_app. Qed.

Lemma embeddings_built_app name (l1 l2 : list (value * provider_call)) :
  embeddings_built name (l1 ++ l2)
    = embeddings_built name l1 + embeddings_built name l2.
Proof. unfold embeddings_built. by rewrite filter_app, length_app. Qed.

Lemma llm_built_one name n c :
  llm_built name [(n, c)]
    = if decide (n = name) then (if is_llm_call c then 1 else 0) else 0.
Proof.
  unfold llm_built. rewrite filter_cons, filter_nil. simpl.
  destruct (decide (n = name)), (is_llm_call c); by repeat case_decide; intuition.
Qed.

Lemma embeddings_built_one name n c :
  embeddings_built name [(n, c)]
    = if decide (n = name) then (if is_llm_call c then 0 else 1) else 0.
Proof.
  unfold embeddings_built. rewrite filter_cons, filter_nil. simpl.
  destruct (decide (n = name)), (is_llm_call c); by repeat case_decide; intuition.
Qed.

(** *** The two halves of [get_model], case by case *)

Lemma get_llm_eq config st :
  ModelManager.get_llm config st =
  match config !! CONFIG_LLM with
  | None => (inr None, st)
  | Some n =>
      match models st !! n with
      | None => (inl (ModelManager.not_named n), st)
      | Some e =>
          match LLM_INST e with
          | Some h => (inr (Some h), st)
          | None =>
              match get_model (LLM_CONFIG e) with
              | inl err => (inl err, st)
              | inr f => (inr (Some (length (ctor_log st))), built_llm st n f)
              end
          end
      end
  end.
Proof.
  unfold ModelManager.get_llm.
  destruct (config !! CONFIG_LLM) as [n|]; [|done].
  destruct (models st !! n) as [e|]; [|done].
  destruct (LLM_INST e); [done|]. unfold bind, lift.
  by destruct (get_model (LLM_CONFIG e)).
Qed.

Lemma get_embeddings_eq config st :
  ModelManager.get_embeddings config st =
  match config !! CONFIG_EMBEDDINGS with
  | None => (inr None, st)
  | Some n =>
      match models st !! n with
      | None => (inl (ModelManager.not_named n), st)
      | Some e =>
          match EMBEDDINGS_INST e with
          | Some h => (inr (Some h), st)
          | None =>
              match get_model (LLM_CONFIG e) with
              | inl err => (inl err, st)
              | inr f =>
                  (inr (Some (length (ctor_log st))), built_embeddings st n f)
              end
          end
      end
  end.
Proof.
  unfold ModelManager.get_embeddings.
  destruct (config !! CONFIG_EMBEDDINGS) as [n|]; [|done].
  destruct (models st !! n) as [e|]; [|done].
  destruct (EMBEDDINGS_INST e); [done|]. unfold bind, lift.
  by destruct (get_model (LLM_CONFIG e)).
Qed.

Lemma get_model_eq config st :
  ModelManager.get_model config st =
  match ModelManager.get_llm config st with
  | (inl err, st1) => (inl err, st1)
  | (inr l, st1) =>
      match ModelManager.get_embeddings config st1 with
      | (inl err, st2) => (inl err, st2)
      | (inr e, st2) => (inr {| llm := l; embeddings := e |}, st2)
      end
  end.
Proof.
  unfold ModelManager.get_model, bind, ret.
  destruct (ModelManager.get_llm config st) as [[err|l] st1]; [done|].
  by destruct (ModelManager.get_embeddings config st1) as [[err|e] st2].
Qed.

(** *** The state after a construction *)

Lemma llm_of_built_llm st n f name :
  llm_of (built_llm st n f) name =
  if decide (n = name)
  then (λ _, length (ctor_log st)) <$> models st !! n
  else llm_of st name.
Proof.
  unfold llm_of, built_llm. simpl. case_decide as Hn.
  - subst. rewrite lookup_alter_eq. by destruct (models st !! name).
  - by rewrite lookup_alter_ne.
Qed.

Lemma embeddings_of_built_llm st n f name :
  embeddings_of (built_llm st n f) name = embeddings_of st name.
Proof.
  unfold embeddings_of, built_llm. simpl.
  destruct (decide (n = name)) as [->|Hn].
  - rewrite lookup_alter_eq. by destruct (models st !! name).
  - by rewrite lookup_alter_ne.
Qed.

Lemma config_of_built_llm st n f name :
  config_of (built_llm st n f) name = config_of st name.
Proof.
  unfold config_of, built_llm. simpl.
  destruct (decide (n = name)) as [->|Hn].
  - rewrite lookup_alter_eq. by destruct (models st !! name).
  - by rewrite lookup_alter_ne.
Qed.

Lemma embeddings_of_built_embeddings st n f name :
  embeddings_of (built_embeddings st n f) name =
  if decide (n = name)
  then (λ _, length (ctor_log st)) <$> models st !! n
  else embeddings_of st name.
Proof.
  unfold embeddings_of, built_embeddings. simpl. case_decide as Hn.
  - subst. rewrite lookup_alter_eq. by destruct (models st !! name).
  - by rewrite lookup_alter_ne.
Qed.

Lemma llm_of_built_embeddings st n f name :
  llm_of (built_embeddings st n f) name = llm_of st name.
Proof.
  unfold llm_of, built_embeddings. simpl.
  destruct (decide (n = name)) as [->|Hn].
  - rewrite lookup_alter_eq. by destruct (models st !! name).
  - by rewrite lookup_alter_ne.
Qed.

Lemma config_of_built_embeddings st n f name :
  config_of (built_embeddings st n f) name = config_of st name.
Proof.
  unfold config_of, built_embeddings. simpl.
  destruct (decide (n = name)) as [->|Hn].
  - rewrite lookup_alter_eq. by destruct (models st !! name).
  - by rewrite lookup_alter_ne.
Qed.

Lemma kept_refl st : kept st st.
Proof. by split_and!. Qed.

Lemma kept_trans st1 st2 st3 : kept st1 st2 → kept st2 st3 → kept st1 st3.
Proof.
  intros (Hc1 & Hl1 & He1) (Hc2 & Hl2 & He2). split_and!.
  - intros name. by rewrite Hc2.
  - intros name h H. by apply Hl2, Hl1.
  - intros name h H. by apply He2, He1.
Qed.

Lemma kept_built_llm st n f : llm_of st n = None → kept st (built_llm st n f).
Proof.
  intros Hnone. split_and!.
  - apply config_of_built_llm.
  - intros name h H. rewrite llm_of_built_llm. case_decide; [|done].
    subst. congruence.
  - intros name h H. by rewrite embeddings_of_built_llm.
Qed.

Lemma kept_built_embeddings st n f :
  embeddings_of st n = None → kept st (built_embeddings st n f).
Proof.
  intros Hnone. split_and!.
  - apply config_of_built_embeddings.
  - intros name h H. by rewrite llm_of_built_embeddings.
  - intros name h H. rewrite embeddings_of_built_embeddings.
    case_decide; [|done]. subst. congruence.
Qed.

Lemma counted_built_llm st n e f :
  counted st → models st !! n = Some e → LLM_INST e = None →
  counted (built_llm st n f).
Proof.
  intros Hc Hn He name. destruct (Hc name) as [Hl Hemb].
  rewrite llm_of_built_llm, embeddings_of_built_llm. unfold built_llm; simpl.
  rewrite llm_built_app, embeddings_built_app, llm_built_one,
    embeddings_built_one, create_llm_is_llm, Hl, Hemb.
  split; [|by case_decide; lia].
  case_decide as Hname; [|lia]. subst.
  unfold llm_of. rewrite Hn. simpl. by rewrite He.
Qed.

Lemma counted_built_embeddings st n e f :
  counted st → models st !! n = Some e → EMBEDDINGS_INST e = None →
  counted (built_embeddings st n f).
Proof.
  intros Hc Hn He name. destruct (Hc name) as [Hl Hemb].
  rewrite llm_of_built_embeddings, embeddings_of_built_embeddings.
  unfold built_embeddings; simpl.
  rewrite llm_built_app, embeddings_built_app, llm_built_one,
    embeddings_built_one, create_embeddings_is_embeddings, Hl, Hemb.
  split; [by case_decide; lia|].
  case_decide as Hname; [|lia]. subst.
  unfold embeddings_of. rewrite Hn. simpl. by rewrite He.
Qed.

(** *** One resolution *)

Lemma get_llm_step config st r st' :
  ModelManager.get_llm config st = (r, st') →
  kept st st' ∧ (counted st → counted st') ∧
  (∀ name, embeddings_of st' name = embeddings_of st name) ∧
  (∀ name, config !! CONFIG_LLM ≠ Some name →
     llm_of st' name = llm_of st name) ∧
  (∀ o, r = inr o →
     o = config !! CONFIG_LLM ≫= llm_of st' ∧
     (is_Some (config !! CONFIG_LLM) → is_Some o)).
Proof.
  rewrite get_llm_eq.
  destruct (config !! CONFIG_LLM) as [n|] eqn:Hreq.
  2:{ intros [= <- <-].
      split_and!; [apply kept_refl|done|done|done|].
      intros o [= <-]. split; [done|]. by intros [? [=]]. }
  destruct (models st !! n) as [e|] eqn:Hent.
  2:{ intros [= <- <-]. split_and!; [apply kept_refl|done..]. }
  destruct (LLM_INST e) as [h|] eqn:Hinst.
  { intros [= <- <-]. split_and!; [apply kept_refl|done|done|done|].
    intros o [= <-]. simpl. unfold llm_of. rewrite Hent. simpl.
    rewrite Hinst. eauto. }
  destruct (get_model (LLM_CONFIG e)) as [err|f] eqn:Hfac.
  { intros [= <- <-]. split_and!; [apply kept_refl|done..]. }
  intros [= <- <-].
  assert (llm_of st n = None) as Hnone.
  { unfold llm_of. rewrite Hent. done. }
  split_and!.
  - by apply kept_built_llm.
  - intros Hc. by eapply counted_built_llm.
  - intros name. apply embeddings_of_built_llm.
  - intros name Hne. rewrite llm_of_built_llm. case_decide; [|done].
    subst. done.
  - intros o [= <-]. simpl. rewrite llm_of_built_llm, decide_True by done.
    rewrite Hent. simpl. eauto.
Qed.

Lemma get_embeddings_step config st r st' :
  ModelManager.get_embeddings config st = (r, st') →
  kept st st' ∧ (counted st → counted st') ∧
  (∀ name, llm_of st' name = llm_of st name) ∧
  (∀ name, config !! CONFIG_EMBEDDINGS ≠ Some name →
     embeddings_of st' name = embeddings_of st name) ∧
  (∀ o, r = inr o →
     o = config !! CONFIG_EMBEDDINGS ≫= embeddings_of st' ∧
     (is_Some (config !! CONFIG_EMBEDDINGS) → is_Some o)).
Proof.
  rewrite get_embeddings_eq.
  destruct (config !! CONFIG_EMBEDDINGS) as [n|] eqn:Hreq.
  2:{ intros [= <- <-].
      split_and!; [apply kept_refl|done|done|done|].
      intros o [= <-]. split; [done|]. by intros [? [=]]. }
  destruct (models st !! n) as [e|] eqn:Hent.
  2:{ intros [= <- <-]. split_and!; [apply kept_refl|done..]. }
  destruct (EMBEDDINGS_INST e) as [h|] eqn:Hinst.
  { intros [= <- <-]. split_and!; [apply kept_refl|done|done|done|].
    intros o [= <-]. simpl. unfold embeddings_of. rewrite Hent. simpl.
    rewrite Hinst. eauto. }
  destruct (get_model (LLM_CONFIG e)) as [err|f] eqn:Hfac.
  { intros [= <- <-]. split_and!; [apply kept_refl|done..]. }
  intros [= <- <-].
  assert (embeddings_of st n = None) as Hnone.
  { unfold embeddings_of. rewrite Hent. done. }
  split_and!.
  - by apply kept_built_embeddings.
  - intros Hc. by eapply counted_built_embeddings.
  - intros name. apply llm_of_built_embeddings.
  - intros name Hne. rewrite embeddings_of_built_embeddings.
    case_decide; [|done]. subst. done.
  - intros o [= <-]. simpl.
    rewrite embeddings_of_built_embeddings, decide_True by done.
    rewrite Hent. simpl. eauto.
Qed.

Lemma get_model_step config st r st' :
  ModelManager.get_model config st = (r, st') →
  kept st st' ∧ (counted st → counted st') ∧
  (∀ name, config !! CONFIG_LLM ≠ Some name →
     llm_of st' name = llm_of st name) ∧
  (∀ name, config !! CONFIG_EMBEDDINGS ≠ Some name →
     embeddings_of st' name = embeddings_of st name) ∧
  (∀ m, r = inr m →
     (llm m = config !! CONFIG_LLM ≫= llm_of st' ∧
      (is_Some (config !! CONFIG_LLM) → is_Some (llm m))) ∧
     (embeddings m = config !! CONFIG_EMBEDDINGS ≫= embeddings_of st' ∧
      (is_Some (config !! CONFIG_EMBEDDINGS) → is_Some (embeddings m)))).
Proof.
  rewrite get_model_eq.
  destruct (ModelManager.get_llm config st) as [r1 st1] eqn:H1.
  destruct (get_llm_step _ _ _ _ H1) as (Hk1 & Hc1 & Hfe1 & Hfl1 & Hr1).
  destruct r1 as [err|l].
  { intros [= <- <-]. split_and!; [done|done|done|..|done].
    intros name _. apply Hfe1. }
  destruct (ModelManager.get_embeddings config st1) as [r2 st2] eqn:H2.
  destruct (get_embeddings_step _ _ _ _ H2) as (Hk2 & Hc2 & Hfl2 & Hfe2 & Hr2).
  assert (kept st st2) as Hk by (by eapply kept_trans).
  assert (∀ name, config !! CONFIG_LLM ≠ Some name →
            llm_of st2 name = llm_of st name) as Hfl.
  { intros name Hne. rewrite Hfl2. by apply Hfl1. }
  assert (∀ name, config !! CONFIG_EMBEDDINGS ≠ Some name →
            embeddings_of st2 name = embeddings_of st name) as Hfe.
  { intros name Hne. rewrite Hfe2 by done. apply Hfe1. }
  destruct r2 as [err|e]; intros [= <- <-];
    (split_and!; [done|by auto|done|done|]); [done|].
  intros m [= <-]. simpl.
  destruct (Hr1 l eq_refl) as [-> Hs1]. destruct (Hr2 e eq_refl) as [-> Hs2].
  split_and!; [|done..].
  destruct (config !! CONFIG_LLM); [simpl; by rewrite Hfl2|done].
Qed.

(** A request whose names are registered with accepted descriptors is
    served. *)
Lemma accepted_kept st st' name : kept st st' → accepted st name → accepted st' name.
Proof.
  intros (Hc & _) (llm_config & f & Hcfg & Hf). exists llm_config, f.
  by rewrite Hc.
Qed.

Lemma resolvable_kept st st' config :
  kept st st' → resolvable st config → resolvable st' config.
Proof.
  intros Hk [Hl He]. split; intros name H; eapply accepted_kept; eauto.
Qed.

Lemma get_llm_accepted config st :
  (∀ name, config !! CONFIG_LLM = Some name → accepted st name) →
  ∃ o, (ModelManager.get_llm config st).1 = inr o.
Proof.
  intros Hacc. rewrite get_llm_eq.
  destruct (config !! CONFIG_LLM) as [n|]; [|by eauto].
  destruct (Hacc n eq_refl) as (llm_config & f & Hcfg & Hf).
  unfold config_of in Hcfg.
  destruct (models st !! n) as [e|]; [|done]. injection Hcfg as <-.
  destruct (LLM_INST e); [by eauto|]. rewrite Hf. by eauto.
Qed.

Lemma get_embeddings_accepted config st :
  (∀ name, config !! CONFIG_EMBEDDINGS = Some name → accepted st name) →
  ∃ o, (ModelManager.get_embeddings config st).1 = inr o.
Proof.
  intros Hacc. rewrite get_embeddings_eq.
  destruct (config !! CONFIG_EMBEDDINGS) as [n|]; [|by eauto].
  destruct (Hacc n eq_refl) as (llm_config & f & Hcfg & Hf).
  unfold config_of in Hcfg.
  destruct (models st !! n) as [e|]; [|done]. injection Hcfg as <-.
  destruct (EMBEDDINGS_INST e); [by eauto|]. rewrite Hf. by eauto.
Qed.

Lemma get_model_resolvable config st :
  resolvable st config → ∃ m, (ModelManager.get_model config st).1 = inr m.
Proof.
  intros [Hl He]. rewrite get_model_eq.
  destruct (get_llm_accepted config st Hl) as [l Hgl].
  destruct (ModelManager.get_llm config st) as [r1 st1] eqn:H1.
  simpl in Hgl. subst r1.
  destruct (get_llm_step _ _ _ _ H1) as (Hk1 & _).
  destruct (get_embeddings_accepted config st1) as [e Hge].
  { intros name H. eapply accepted_kept; eauto. }
  destruct (ModelManager.get_embeddings config st1) as [r2 st2].
  simpl in Hge. subst r2. by eauto.
Qed.

(** *** A sequential execution *)

Lemma run_spec reqs : ∀ st results st',
  ModelManager.run reqs st = (results, st') →
  kept st st' ∧ (counted st → counted st') ∧
  (∀ name, Forall (λ config : dict, config !! CONFIG_LLM ≠ Some name) reqs →
     llm_of st' name = llm_of st name) ∧
  (∀ name,
     Forall (λ config : dict, config !! CONFIG_EMBEDDINGS ≠ Some name) reqs →
     embeddings_of st' name = embeddings_of st name) ∧
  (∀ i config m, reqs !! i = Some config → results !! i = Some (inr m) →
     (llm m = config !! CONFIG_LLM ≫= llm_of st' ∧
      (is_Some (config !! CONFIG_LLM) → is_Some (llm m))) ∧
     (embeddings m = config !! CONFIG_EMBEDDINGS ≫= embeddings_of st' ∧
      (is_Some (config !! CONFIG_EMBEDDINGS) → is_Some (embeddings m)))) ∧
  (∀ i config, reqs !! i = Some config → resolvable st config →
     ∃ m, results !! i = Some (inr m)).
Proof.
  induction reqs as [|config reqs IH]; intros st results st'; simpl.
  { intros [= <- <-]. split_and!; [apply kept_refl|done..]. }
  destruct (ModelManager.get_model config st) as [r st1] eqn:Hstep.
  destruct (ModelManager.run reqs st1) as [rs st2] eqn:Hrun.
  intros [= <- <-].
  destruct (get_model_step _ _ _ _ Hstep) as (Hk1 & Hc1 & Hfl1 & Hfe1 & Hr1).
  destruct (IH _ _ _ Hrun) as (Hk2 & Hc2 & Hfl2 & Hfe2 & Hr2 & Hs2).
  split_and!.
  - by eapply kept_trans.
  - auto.
  - intros name [Hne Hall]%Forall_cons. rewrite Hfl2 by done. by apply Hfl1.
  - intros name [Hne Hall]%Forall_cons. rewrite Hfe2 by done. by apply Hfe1.
  - intros [|i] cfg m; simpl; [|by apply Hr2].
    intros [= <-] [= ->]. destruct (Hr1 m eq_refl) as [[Hl Hsl] [He Hse]].
    destruct Hk2 as (_ & Hkl & Hke). split.
    + split; [|done]. rewrite Hl.
      destruct (config !! CONFIG_LLM) as [n|] eqn:Hn; [simpl|done].
      destruct Hsl as [h Hh]; [by eauto|]. rewrite Hl in Hh. simpl in Hh.
      rewrite Hh. symmetry. by apply Hkl.
    + split; [|done]. rewrite He.
      destruct (config !! CONFIG_EMBEDDINGS) as [n|] eqn:Hn; [simpl|done].
      destruct Hse as [h Hh]; [by eauto|]. rewrite He in Hh. simpl in Hh.
      rewrite Hh. symmetry. by apply Hke.
  - intros [|i] cfg; simpl.
    + intros [= <-] Hres.
      destruct (get_model_resolvable _ _ Hres) as [m Hm].
      rewrite Hstep in Hm. simpl in Hm. subst r. by eauto.
    + intros Hi Hres. apply (Hs2 i cfg); [done|]. by eapply resolvable_kept.
Qed.

Lemma counted_fresh (self : registry) :
  (∀ name e, self !! name = Some e → blank e) → counted (fresh self).
Proof.
  intros Hblank name. unfold llm_of, embeddings_of, fresh. simpl.
  destruct (self !! name) as [e|] eqn:He; [|done].
  destruct (Hblank _ _ He) as [Hl Hemb]. simpl. by rewrite Hl, Hemb.
Qed.

End resolve_facts.
End resolve_facts.

(** ** The registry claims *)
Module registry_claims.
Import model_manager registry_spec factory_facts build_facts resolve_facts.
Section registry_claims.
Context {C : Const}.

(** C1.  In a sequential execution that starts from a freshly built
    registry, whatever requests are served: for every name at most one
    language model and at most one embedding model are ever
    constructed; any two served requests that name it for the language
    model receive one and the same handle, the one cached for the name,
    and exactly one language model was then constructed for it (and
    likewise for embedding requests); and a request is served whenever
    the names it gives are registered with descriptors their factories
    accept. *)
Theorem C1_resolve_constructs_once
    (config0 : gmap string (list dict)) self (reqs : list dict) name :
  ModelManager.new config0 None = (inr self, Some self) →
  let out := ModelManager.run reqs (fresh self) in
  (llm_built name (ctor_log out.2) ≤ 1 ∧
   embeddings_built name (ctor_log out.2) ≤ 1)%nat ∧
  (∀ i j ci cj mi mj,
     reqs !! i = Some ci → out.1 !! i = Some (inr mi) →
     reqs !! j = Some cj → out.1 !! j = Some (inr mj) →
     (ci !! CONFIG_LLM = Some name → cj !! CONFIG_LLM = Some name →
        ∃ h, llm mi = Some h ∧ llm mj = Some h ∧
             llm_of out.2 name = Some h ∧
             llm_built name (ctor_log out.2) = 1) ∧
     (ci !! CONFIG_EMBEDDINGS = Some name →
      cj !! CONFIG_EMBEDDINGS = Some name →
        ∃ h, embeddings mi = Some h ∧ embeddings mj = Some h ∧
             embeddings_of out.2 name = Some h ∧
             embeddings_built name (ctor_log out.2) = 1)) ∧
  (∀ i config, reqs !! i = Some config → resolvable (fresh self) config →
     ∃ m, out.1 !! i = Some (inr m)).
Proof.
  intros Hnew out. subst out.
  destruct (ModelManager.run reqs (fresh self)) as [results st] eqn:Hrun.
  simpl.
  destruct (run_spec _ _ _ _ Hrun) as (Hk & Hc & _ & _ & Hr & Hs).
  assert (counted st) as Hcst.
  { apply Hc, counted_fresh. by eapply new_blank. }
  split_and!; [| |clear Hs|done].
  - destruct (Hcst name) as [-> _]. by destruct (llm_of st name); lia.
  - destruct (Hcst name) as [_ ->]. by destruct (embeddings_of st name); lia.
  - intros i j ci cj mi mj Hi Hmi Hj Hmj.
    destruct (Hr _ _ _ Hi Hmi) as [[Hli Hsi] [Hei Hsei]].
    destruct (Hr _ _ _ Hj Hmj) as [[Hlj _] [Hej _]].
    destruct (Hcst name) as [Hcl Hce]. split; intros Hci Hcj.
    + rewrite Hci in Hli, Hsi. rewrite Hcj in Hlj. simpl in *.
      destruct Hsi as [h Hh]; [by eauto|]. exists h.
      rewrite Hh in Hli. rewrite <- Hli in Hlj, Hcl. done.
    + rewrite Hci in Hei, Hsei. rewrite Hcj in Hej. simpl in *.
      destruct Hsei as [h Hh]; [by eauto|]. exists h.
      rewrite Hh in Hei. rewrite <- Hei in Hej, Hce. done.
Qed.

(** C8.  A freshly built registry holds, for every descriptor, an entry
    whose two handles are empty (construction has no access to the
    provider constructors at all), and in any sequential execution that
    follows, the language-model handle of a name stays empty, with no
    language model constructed for it, as long as no request names it
    for the language model; likewise for its embedding handle. *)
Theorem C8_build_constructs_nothing
    (config0 : gmap string (list dict)) self :
  ModelManager.new config0 None = (inr self, Some self) →
  (∀ name e, self !! name = Some e →
     LLM_INST e = None ∧ EMBEDDINGS_INST e = None) ∧
  (∀ (reqs : list dict) name,
     let st := (ModelManager.run reqs (fresh self)).2 in
     config_of st name = config_of (fresh self) name ∧
     (Forall (λ config : dict, config !! CONFIG_LLM ≠ Some name) reqs →
        llm_of st name = None ∧ llm_built name (ctor_log st) = 0) ∧
     (Forall (λ config : dict, config !! CONFIG_EMBEDDINGS ≠ Some name) reqs →
        embeddings_of st name = None ∧
        embeddings_built name (ctor_log st) = 0)).
Proof.
  intros Hnew.
  assert (∀ name e, self !! name = Some e → blank e) as Hblank
    by by eapply new_blank.
  split; [done|]. intros reqs name.
  destruct (ModelManager.run reqs (fresh self)) as [results st] eqn:Hrun.
  simpl.
  destruct (run_spec _ _ _ _ Hrun) as ((Hcfg & _) & Hc & Hfl & Hfe & _).
  destruct (Hc (counted_fresh _ Hblank) name) as [Hcl Hce].
  assert (llm_of (fresh self) name = None ∧
          embeddings_of (fresh self) name = None) as [Hl0 He0].
  { unfold llm_of, embeddings_of, fresh. simpl.
    destruct (self !! name) as [e|] eqn:He; [|done].
    exact (Hblank _ _ He). }
  split_and!; [done|..].
  - intros Hall. rewrite Hcl, (Hfl _ Hall), Hl0. done.
  - intros Hall. rewrite Hce, (Hfe _ Hall), He0. done.
Qed.

(** C2 (amended).  A request that names an unregistered backend is not
    served, and no embedding model is constructed or cached by it.
    Case by case on the name given for the language model: when there
    is none, or when it is itself unregistered, or when it is
    registered with its handle already cached, the call raises the
    [ValueError] for an unregistered name and changes nothing; when it
    is registered with no handle cached and the factory rejects its
    descriptor, the call raises the factory's error and changes
    nothing; when it is registered with no handle cached and the
    factory accepts its descriptor, the language model is constructed
    and cached, and the call then raises the [ValueError] for the
    embeddings name. *)
Theorem C2_unregistered_name_fails config st name :
  config !! CONFIG_LLM = Some name ∨ config !! CONFIG_EMBEDDINGS = Some name →
  models st !! name = None →
  let out := ModelManager.get_model config st in
  raises out.1 = true ∧
  (∀ n, embeddings_of out.2 n = embeddings_of st n ∧
        embeddings_built n (ctor_log out.2)
          = embeddings_built n (ctor_log st)) ∧
  (config !! CONFIG_LLM = None →
     out = (inl (ModelManager.not_named name), st)) ∧
  (∀ n, config !! CONFIG_LLM = Some n → models st !! n = None →
     out = (inl (ModelManager.not_named n), st)) ∧
  (∀ n e, config !! CONFIG_LLM = Some n → models st !! n = Some e →
     match LLM_INST e with
     | Some _ => out = (inl (ModelManager.not_named name), st)
     | None =>
         match get_model (LLM_CONFIG e) with
         | inl err => out = (inl err, st)
         | inr f =>
             out = (inl (ModelManager.not_named name), built_llm st n f) ∧
             llm_of out.2 n = Some (length (ctor_log st)) ∧
             ctor_log out.2 = ctor_log st ++ [(n, create_llm f)]
         end
     end).
Proof.
  intros Hreq Hunreg out. subst out.
  rewrite get_model_eq, get_llm_eq.
  destruct (config !! CONFIG_LLM) as [n|] eqn:Hl.
  - destruct (models st !! n) as [e|] eqn:Hent.
    + assert (n ≠ name) as Hne by (intros ->; congruence).
      destruct Hreq as [[= ?]|Hemb]; [done|].
      destruct (LLM_INST e) as [h|] eqn:Hinst;
        [|destruct (get_model (LLM_CONFIG e)) as [err|f] eqn:Hfac].
      * rewrite get_embeddings_eq, Hemb, Hunreg. simpl.
        split_and!; [done|done|done|intros ? [= <-] ?; congruence|].
        intros n0 e0 [= <-] He0.
        assert (e0 = e) as -> by congruence. by rewrite Hinst.
      * simpl. split_and!; [done|done|done|intros ? [= <-] ?; congruence|].
        intros n0 e0 [= <-] He0.
        assert (e0 = e) as -> by congruence. by rewrite Hinst, Hfac.
      * rewrite get_embeddings_eq, Hemb. simpl.
        rewrite lookup_alter_ne, Hunreg by done. simpl. split_and!.
        -- done.
        -- intros k. rewrite embeddings_of_built_llm.
           rewrite embeddings_built_app, embeddings_built_one,
             create_llm_is_llm. split; [done|]. case_decide; lia.
        -- done.
        -- intros ? [= <-] ?; congruence.
        -- intros n0 e0 [= <-] He0.
        assert (e0 = e) as -> by congruence. rewrite Hinst, Hfac.
           split_and!; [done| |done].
           rewrite llm_of_built_llm, decide_True by done. by rewrite Hent.
    + simpl. split_and!; [done|done|done| |].
      * by intros ? [= <-] _.
      * intros ? ? [= <-]. congruence.
  - destruct Hreq as [[=]|Hemb].
    rewrite get_embeddings_eq, Hemb, Hunreg. simpl.
    split_and!; [done|done|done|by intros ? [=]|by intros ? ? [=]].
Qed.

End registry_claims.
End registry_claims.

(** *** Closed instances *)
Module registry_examples.
Import model_manager registry_spec examples build_facts registry_claims.
#[local] Existing Instance example_const.

Example build_example :
  ModelManager.new example_config None
    = (inr example_registry, Some example_registry).
Proof. reflexivity. Qed.

Example resolve_twice_example :
  ModelManager.run [llm_request "local"; llm_request "local"] example_state
  = ([inr {| llm := Some 0; embeddings := None |};
      inr {| llm := Some 0; embeddings := None |}],
     {| models :=
          <[PyStr "local" :=
              {| LLM_CONFIG := local_llm; LLM_INST := Some 0;
                 EMBEDDINGS_INST := None |}]> example_registry;
        ctor_log := [(PyStr "local", LlamaCpp (PyStr "/models/7b.gguf") 4096)]
     |}).
Proof. reflexivity. Qed.

(** A registered name whose descriptor has no type is never resolved:
    every request for it raises and nothing is constructed. *)
Example resolve_untyped_example :
  ModelManager.new (<["llms" := [bare_llm]]> ∅) None
    = (inr (<[PyStr "bare" := blank_entry bare_llm]> ∅),
       Some (<[PyStr "bare" := blank_entry bare_llm]> ∅)) ∧
  ModelManager.run [llm_request "bare"; llm_request "bare"]
    (fresh (<[PyStr "bare" := blank_entry bare_llm]> ∅))
  = ([inl (ValueError "The llm config doesn't contain type");
      inl (ValueError "The llm config doesn't contain type")],
     fresh (<[PyStr "bare" := blank_entry bare_llm]> ∅)).
Proof. split; reflexivity. Qed.

(** The language model of a registered name is constructed and cached
    by a request that then fails on its embeddings name. *)
Example partial_construction_example :
  ModelManager.get_model (both_request "local" "missing") example_state
  = (inl (ModelManager.not_named (PyStr "missing")),
     built_llm example_state (PyStr "local")
       (LlamaCppFactory (PyStr "/models/7b.gguf"))).
Proof. reflexivity. Qed.

(** With a registered name whose descriptor its factory rejects, the
    same kind of request raises the factory's error and builds
    nothing. *)
Example rejected_descriptor_example :
  ModelManager.get_model (both_request "bare" "missing")
    (fresh (<[PyStr "bare" := blank_entry bare_llm]> ∅))
  = (inl (ValueError "The llm config doesn't contain type"),
     fresh (<[PyStr "bare" := blank_entry bare_llm]> ∅)).
Proof. reflexivity. Qed.

Lemma C1_resolve_constructs_once_witness :
  ModelManager.new example_config None
    = (inr example_registry, Some example_registry) ∧
  ∃ h,
    llm_of
      (ModelManager.run [llm_request "local"; llm_request "local"]
         (fresh example_registry)).2 (PyStr "local") = Some h ∧
    llm_built (PyStr "local")
      (ctor_log
         (ModelManager.run [llm_request "local"; llm_request "local"]
            (fresh example_registry)).2) = 1.
Proof.
  assert (ModelManager.new example_config None
          = (inr example_registry, Some example_registry)) as Hnew
    by reflexivity.
  split; [exact Hnew|].
  destruct (C1_resolve_constructs_once example_config example_registry
              [llm_request "local"; llm_request "local"] (PyStr "local")
              Hnew) as (_ & Hsame & _).
  destruct (Hsame 0 1 (llm_request "local") (llm_request "local")
              {| llm := Some 0; embeddings := None |}
              {| llm := Some 0; embeddings := None |})
    as [Hl _]; [reflexivity..|].
  destruct Hl as (h & _ & _ & Hof & Hcount); [reflexivity..|].
  exists h. split; [exact Hof|exact Hcount].
Defined.

Lemma C8_build_constructs_nothing_witness :
  ModelManager.new example_config None
    = (inr example_registry, Some example_registry) ∧
  llm_of
    (ModelManager.run [llm_request "local"; embeddings_request "remote"]
       (fresh example_registry)).2 (PyStr "remote") = None.
Proof.
  assert (ModelManager.new example_config None
          = (inr example_registry, Some example_registry)) as Hnew
    by reflexivity.
  split; [exact Hnew|].
  destruct (C8_build_constructs_nothing example_config example_registry
              Hnew) as [_ Hrun].
  destruct (Hrun [llm_request "local"; embeddings_request "remote"]
              (PyStr "remote")) as (_ & Hllm & _).
  apply Hllm. repeat constructor; discriminate.
Defined.

Lemma C2_unregistered_name_fails_witness :
  both_request "local" "missing" !! CONFIG_EMBEDDINGS
    = Some (PyStr "missing") ∧
  models example_state !! PyStr "missing" = None ∧
  ModelManager.get_model (both_request "local" "missing") example_state
  = (inl (ModelManager.not_named (PyStr "missing")),
     built_llm example_state (PyStr "local")
       (LlamaCppFactory (PyStr "/models/7b.gguf"))).
Proof.
  assert (both_request "local" "missing" !! CONFIG_EMBEDDINGS
          = Some (PyStr "missing")) as Hreq by reflexivity.
  assert (models example_state !! PyStr "missing" = None) as Hunreg
    by reflexivity.
  split; [exact Hreq|]. split; [exact Hunreg|].
  destruct (C2_unregistered_name_fails (both_request "local" "missing")
              example_state (PyStr "missing") (or_intror Hreq) Hunreg)
    as (_ & _ & _ & _ & Hcase).
  assert (both_request "local" "missing" !! CONFIG_LLM = Some (PyStr "local"))
    as Hllm by reflexivity.
  assert (models example_state !! PyStr "local" = Some (blank_entry local_llm))
    as Hent by reflexivity.
  exact (proj1 (Hcase _ _ Hllm Hent)).
Defined.

(** C2 (as stated) fails: a request that names a registered backend for
    the language model and an unregistered one for the embeddings
    raises after the language model has been constructed and cached. *)
Lemma C2_counterexample :
  ¬ (∀ (K : Const) (st : mm) (config : dict) (name : value),
       config !! @CONFIG_LLM K = Some name
       ∨ config !! @CONFIG_EMBEDDINGS K = Some name →
       models st !! name = None →
       is_ValueError (@ModelManager.get_model K config st).1 = true ∧
       (@ModelManager.get_model K config st).2 = st).
Proof.
  intros Hclaim.
  destruct (Hclaim example_const example_state
              (both_request "local" "missing") (PyStr "missing"))
    as [_ Hsame]; [by right|reflexivity|].
  apply (f_equal ctor_log) in Hsame. discriminate Hsame.
Qed.

Lemma C3_build_validation_witness :
  (is_ValueError (ModelManager.new absent_config None).1 = true ∧
   (ModelManager.new absent_config None).2 = None) ∧
  (is_ValueError (ModelManager.new duplicate_config None).1 = true ∧
   (ModelManager.new duplicate_config None).2 = None) ∧
  ∃ self, ModelManager.new example_config None = (inr self, Some self).
Proof.
  split; [|split].
  - apply (C3_build_validation absent_config). reflexivity.
  - destruct (C3_build_validation duplicate_config) as [_ Hlist].
    destruct (Hlist [local_llm; local_llm]) as [Hfail _]; [reflexivity|].
    apply Hfail. right.
    change (¬ NoDup [PyStr "local"; PyStr "local"]).
    intros [Hnotin _]%NoDup_cons. apply Hnotin. by left.
  - destruct (C3_build_validation example_config) as [_ Hlist].
    destruct (Hlist [local_llm; remote_llm]) as [_ Hok]; [reflexivity|].
    assert (Forall named [local_llm; remote_llm]) as Hall
      by (repeat constructor; by eexists).
    assert (NoDup (names [local_llm; remote_llm])) as Hnd.
    { change (NoDup [PyStr "local"; PyStr "remote"]).
      apply NoDup_cons. split; [|apply NoDup_singleton].
      intros Hin%list_elem_of_singleton. discriminate Hin. }
    destruct (Hok Hall Hnd) as (self & Hself & _). by exists self.
Defined.

Lemma C10_singleton_witness :
  ModelManager.new example_config None
    = (inr example_registry, Some example_registry) ∧
  ModelManager.new absent_config (Some example_registry)
    = (inr example_registry, Some example_registry) ∧
  ModelManager.new duplicate_config (Some example_registry)
    = (inr example_registry, Some example_registry).
Proof.
  assert (ModelManager.new example_config None
          = (inr example_registry, Some example_registry)) as Hnew
    by reflexivity.
  split; [exact Hnew|].
  destruct (C10_singleton example_config example_registry
              (Some example_registry) Hnew) as [_ Hagain].
  split; apply Hagain.
Defined.

End registry_examples.

(** ** The session memory manager *)
Module memory_facts.
Import memory memory_spec.
Section memory_facts.
Context {C : Const}.
Variable llm_invoke : nat → list message → string.
Variable load_memory_variables : string → list message → list message.
Variable prune : string → list message → string.

Implicit Types (st : Memory * env) (session query context : string).

Lemma wf_init (config : dict) self : init config = inr self → wf self.
Proof.
  unfold init. destruct (config !! CONFIG_DB_CONNECTION); [|done].
  intros [= <-] session m. simpl. by rewrite lookup_empty.
Qed.

Lemma get_session_memory_cached session st m :
  session_memories st.1 !! session = Some m →
  get_session_memory session st = (m, st).
Proof. destruct st as [self e]. simpl. by intros ->. Qed.

Lemma get_session_memory_new session st :
  session_memories st.1 !! session = None →
  get_session_memory session st =
  ({| oid := allocated st.2; chat_memory := session;
      moving_summary_buffer := "" |},
   ({| db_connection := db_connection st.1;
       session_memories :=
         <[session := {| oid := allocated st.2; chat_memory := session;
                         moving_summary_buffer := "" |}]>
           (session_memories st.1) |},
    {| store := store st.2;
       history_ctor := history_ctor st.2 ++ [session];
       allocated := S (allocated st.2);
       llm_calls := llm_calls st.2 |})).
Proof. destruct st as [self e]. simpl. by intros ->. Qed.

Lemma get_session_memory_lookup session st :
  session_memories (get_session_memory session st).2.1 !! session
    = Some (get_session_memory session st).1.
Proof.
  destruct (session_memories st.1 !! session) as [m|] eqn:Hm.
  - by rewrite (get_session_memory_cached _ _ _ Hm).
  - rewrite (get_session_memory_new _ _ Hm). simpl. apply lookup_insert_eq.
Qed.

Lemma get_session_memory_store session st :
  store (get_session_memory session st).2.2 = store st.2 ∧
  llm_calls (get_session_memory session st).2.2 = llm_calls st.2.
Proof.
  destruct (session_memories st.1 !! session) as [m|] eqn:Hm.
  - by rewrite (get_session_memory_cached _ _ _ Hm).
  - by rewrite (get_session_memory_new _ _ Hm).
Qed.

Lemma wf_get_session_memory session st :
  wf st.1 →
  wf (get_session_memory session st).2.1 ∧
  chat_memory (get_session_memory session st).1 = session.
Proof.
  intros Hwf. destruct (session_memories st.1 !! session) as [m|] eqn:Hm.
  - rewrite (get_session_memory_cached _ _ _ Hm). split; [done|].
    by apply Hwf.
  - rewrite (get_session_memory_new _ _ Hm). simpl. split; [|done].
    intros s m'. simpl. destruct (decide (session = s)) as [->|Hne].
    + rewrite lookup_insert_eq. by intros [= <-].
    + rewrite lookup_insert_ne by done. apply Hwf.
Qed.

(** A session that is already cached costs no constructor call. *)
Lemma get_session_memory_twice_cached session st m :
  session_memories st.1 !! session = Some m →
  get_session_memory session (get_session_memory session st).2 = (m, st).
Proof.
  intros Hm. rewrite (get_session_memory_cached _ _ _ Hm). simpl.
  by apply get_session_memory_cached.
Qed.

(** C5.  On the first use of a session (no object is cached for it),
    two calls of [__get_session_memory] in a row return the same
    object, the one now cached for the session, and the
    [MongoDBChatMessageHistory] constructor has been called exactly
    once, for that session, across both. *)
Theorem C5_get_session_memory_twice session st :
  session_memories st.1 !! session = None →
  let first := get_session_memory session st in
  let second := get_session_memory session first.2 in
  first.1 = second.1 ∧
  session_memories second.2.1 !! session = Some first.1 ∧
  history_ctor second.2.2 = history_ctor st.2 ++ [session] ∧
  allocated second.2.2 = S (allocated st.2).
Proof.
  intros Hnone first second. subst second first.
  pose proof (get_session_memory_lookup session st) as Hcached.
  rewrite (get_session_memory_cached _ _ _ Hcached).
  split_and!; [done|done|..]; by rewrite (get_session_memory_new _ _ Hnone).
Qed.

(** C6.  In a state whose cached objects are bound to their own
    sessions, [integrate] returns the answer of the language model to
    the conversation made of the fixed system message, the history
    loaded for the session, and one human message that carries both the
    context and the query; the language model is invoked once; and the
    persisted history of the session is the former one followed by
    exactly the query and that answer, the other sessions' histories
    being left as they were. *)
Theorem C6_integrate session query context st :
  wf st.1 →
  let out := integrate llm_invoke load_memory_variables prune
               session query context st in
  let summary :=
    match session_memories st.1 !! session with
    | Some m => moving_summary_buffer m
    | None => ""
    end in
  let history := load_memory_variables summary (messages st.2 session) in
  out.1 = llm_invoke (llm_calls st.2)
            ([SystemMessage "You are a helpful chatbot"] ++ history ++
             [HumanMessage
                ("Based on the context: " +:+ context +:+ ", " +:+ query)]) ∧
  messages out.2.2 session
    = messages st.2 session ++ [HumanMessage query; AIMessage out.1] ∧
  (∀ s, s ≠ session → messages out.2.2 s = messages st.2 s) ∧
  llm_calls out.2.2 = S (llm_calls st.2) ∧
  wf out.2.1.
Proof.
  intros Hwf out summary history. subst out history summary.
  unfold integrate.
  pose proof (wf_get_session_memory session st Hwf) as [Hwf1 Hbound].
  pose proof (get_session_memory_store session st) as [Hstore Hcalls].
  pose proof (get_session_memory_lookup session st) as Hlook.
  assert (moving_summary_buffer (get_session_memory session st).1 =
          match session_memories st.1 !! session with
          | Some m => moving_summary_buffer m
          | None => ""
          end) as Hsum.
  { destruct (session_memories st.1 !! session) as [m|] eqn:Hm.
    - by rewrite (get_session_memory_cached _ _ _ Hm).
    - by rewrite (get_session_memory_new _ _ Hm). }
  destruct (get_session_memory session st) as [m [self1 e1]].
  simpl in *. subst session. unfold messages in *. simpl.
  rewrite Hstore, Hcalls, Hsum, lookup_insert_eq. simpl.
  split_and!; [done|done| |done|].
  - intros s Hne. by rewrite lookup_insert_ne.
  - intros s m'. simpl. destruct (decide (chat_memory m = s)) as [<-|Hne].
    + rewrite lookup_insert_eq. by intros [= <-].
    + rewrite lookup_insert_ne by done. apply Hwf1.
Qed.

(** [clear] stops at the construction of the buffer memory. *)
Lemma clear_eq session st :
  clear session st =
  (inl (field_required "llm"),
   (st.1,
    {| store := store st.2;
       history_ctor := history_ctor st.2 ++ [session];
       allocated := allocated st.2;
       llm_calls := llm_calls st.2 |})).
Proof. by destruct st as [self e]. Qed.

(** C7 (as the code has it).  [clear] raises for every session and
    every state: the buffer memory is constructed without the language
    model it requires.  Nothing is deleted: the persisted histories and
    the cached objects are as before, only a history object has been
    constructed, so that the next [__get_session_memory] of a cached
    session returns the object cached before, with its running summary,
    and the persisted history of the session is still there. *)
Theorem C7_clear_raises session st :
  let out := clear session st in
  out.1 = inl (field_required "llm") ∧
  out.2.1 = st.1 ∧
  store out.2.2 = store st.2 ∧
  history_ctor out.2.2 = history_ctor st.2 ++ [session] ∧
  messages out.2.2 session = messages st.2 session ∧
  (∀ m, session_memories st.1 !! session = Some m →
     (get_session_memory session out.2).1 = m).
Proof.
  intros out. subst out. rewrite clear_eq.
  split_and!; [done..|].
  intros m Hm. erewrite get_session_memory_cached; [done|exact Hm].
Qed.

End memory_facts.
End memory_facts.

Module memory_examples.
Import memory memory_spec examples memory_facts.
#[local] Existing Instance example_const.

Example init_example :
  init (<["db_connection" := PyStr "mongodb://localhost:27017"]> ∅)
    = inr example_memory ∧
  is_ValueError (init ∅) = true.
Proof. split; reflexivity. Qed.

Lemma wf_example_memory : wf example_memory.
Proof. intros session m H. discriminate H. Qed.

Example integrate_example :
  integrate example_llm example_load example_prune
    "s1" "What is X?" "X is defined as ..." (example_memory, example_env)
  = ("X is a letter",
     ({| db_connection := PyStr "mongodb://localhost:27017";
         session_memories :=
           <["s1" := {| oid := 0; chat_memory := "s1";
                        moving_summary_buffer := "" |}]> ∅ |},
      {| store :=
           <["s1" := [HumanMessage "What is X?"; AIMessage "X is a letter"]]> ∅;
         history_ctor := ["s1"]; allocated := 1; llm_calls := 1 |})).
Proof. reflexivity. Qed.

Lemma C5_get_session_memory_twice_witness :
  session_memories example_memory !! "s1" = None ∧
  (get_session_memory "s1" (example_memory, example_env)).1
  = (get_session_memory "s1"
       (get_session_memory "s1" (example_memory, example_env)).2).1 ∧
  history_ctor
    (get_session_memory "s1"
       (get_session_memory "s1" (example_memory, example_env)).2).2.2
  = ["s1"].
Proof.
  assert (session_memories (example_memory, example_env).1 !! "s1" = None)
    as Hnone by reflexivity.
  split; [exact Hnone|].
  destruct (C5_get_session_memory_twice "s1" (example_memory, example_env)
              Hnone) as (Hsame & _ & Hctor & _).
  split; [exact Hsame|exact Hctor].
Defined.

Lemma C6_integrate_witness :
  wf example_memory ∧
  messages
    (integrate example_llm example_load example_prune
       "s1" "What is X?" "X is defined as ..."
       (example_memory, example_env)).2.2 "s1"
  = [HumanMessage "What is X?";
     AIMessage
       (integrate example_llm example_load example_prune
          "s1" "What is X?" "X is defined as ..."
          (example_memory, example_env)).1].
Proof.
  split; [exact wf_example_memory|].
  destruct (C6_integrate example_llm example_load example_prune
              "s1" "What is X?" "X is defined as ..."
              (example_memory, example_env) wf_example_memory)
    as (_ & Happend & _).
  exact Happend.
Defined.

(** After one turn of a session, [clear] raises and the turn is still
    persisted. *)
Example clear_example :
  let st :=
    (integrate example_llm example_load example_prune
       "s1" "What is X?" "X is defined as ..."
       (example_memory, example_env)).2 in
  (clear "s1" st).1 = inl (field_required "llm") ∧
  messages (clear "s1" st).2.2 "s1"
    = [HumanMessage "What is X?"; AIMessage "X is a letter"] ∧
  session_memories (clear "s1" st).2.1 !! "s1"
    = Some {| oid := 0; chat_memory := "s1"; moving_summary_buffer := "" |}.
Proof. split_and!; reflexivity. Qed.

End memory_examples.

(** ** The timed LRU cache *)
Module lru_facts.
Import lru.
Section lru_facts.
Context {K V : Type} `{EqDecision K}.

Implicit Types (k : K) (e : CacheEntry K V) (es : list (CacheEntry K V))
  (c : cache K V).

Lemma find_entry_key k es e : find_entry k es = Some e → key e = k.
Proof.
  unfold find_entry. intros [_ Hk]%find_some. unfold has_key in Hk.
  by apply bool_decide_eq_true in Hk.
Qed.

Lemma remove_key_In k es e : In e (remove_key k es) → In e es ∧ key e ≠ k.
Proof.
  unfold remove_key. rewrite filter_In. intros [Hin Hk]. split; [done|].
  unfold has_key in Hk. apply negb_true_iff, bool_decide_eq_false in Hk. done.
Qed.

Lemma removelast_In {A} (l : list A) x : In x (removelast l) → In x l.
Proof.
  induction l as [|a l IH]; [done|]. simpl.
  destruct l as [|b l]; [done|]. intros [->|Hin]; [by left|].
  right. by apply IH.
Qed.

Lemma evict_In max_entries es e : In e (evict max_entries es) → In e es.
Proof.
  unfold evict. destruct (max_entries <? length es); [|done].
  apply removelast_In.
Qed.

Lemma evict_head max_entries e es :
  0 < max_entries → ∃ es', evict max_entries (e :: es) = e :: es'.
Proof.
  intros Hmax. unfold evict.
  destruct (max_entries <? length (e :: es)) eqn:Hlt; [|by eauto].
  destruct es as [|e' es]; [|simpl; by eauto].
  apply Nat.ltb_lt in Hlt. simpl in Hlt. lia.
Qed.

Lemma evict_length max_entries es :
  length es ≤ S max_entries → length (evict max_entries es) ≤ max_entries.
Proof.
  intros Hlen. unfold evict.
  destruct (max_entries <? length es) eqn:Hlt.
  - apply Nat.ltb_lt in Hlt. rewrite removelast_firstn_len, length_firstn. lia.
  - apply Nat.ltb_ge in Hlt. done.
Qed.

Lemma get_or_compute_hit (now : Z) k (compute : unit → V) (ttl_ : Z)
    (max_entries : nat) c v :
  visible now k c = Some v →
  (get_or_compute now k compute ttl_ max_entries c).1 = v ∧
  computed (get_or_compute now k compute ttl_ max_entries c).2 = computed c ∧
  visible now k (get_or_compute now k compute ttl_ max_entries c).2 = Some v.
Proof.
  unfold visible, get_or_compute.
  destruct (find_entry k (entries c)) as [e|] eqn:Hfind; [|done].
  pose proof (find_entry_key _ _ _ Hfind) as Hk.
  destruct (live now e) eqn:Hlive; [|done]. simpl.
  intros [= <-]. split_and!; [done..|].
  unfold find_entry, has_key. simpl.
  rewrite bool_decide_eq_true_2 by done. by rewrite Hlive.
Qed.

Lemma get_or_compute_miss (now : Z) k (compute : unit → V) (ttl_ : Z)
    (max_entries : nat) c :
  visible now k c = None →
  get_or_compute now k compute ttl_ max_entries c =
  (compute tt,
   {| entries :=
        evict max_entries
          ({| key := k; value := compute tt; created_at := now;
              ttl := ttl_ |} :: remove_key k (entries c));
      computed := S (computed c) |}).
Proof.
  unfold visible, get_or_compute.
  destruct (find_entry k (entries c)) as [e|]; [|done].
  by destruct (live now e).
Qed.

(** C9.  With the cache of the contract: when the entry of the key is
    visible at [now] (present and [now - created_at < ttl]),
    [get_or_compute] returns its value and [compute] is not invoked;
    when no entry is visible (none is stored, or the stored one has
    expired), [compute] is invoked once and its result is returned, so
    an expired value never is; afterwards every entry stored for the
    key is the fresh one, stamped [now], and for a cache of at least
    one entry the fresh entry is the one a lookup finds. *)
Theorem C9_get_or_compute (now : Z) k (compute : unit → V) (ttl_ : Z)
    (max_entries : nat) c :
  let out := get_or_compute now k compute ttl_ max_entries c in
  let new :=
    {| key := k; value := compute tt; created_at := now; ttl := ttl_ |} in
  (∀ v, visible now k c = Some v →
     out.1 = v ∧ computed out.2 = computed c ∧
     visible now k out.2 = Some v) ∧
  (visible now k c = None →
     out.1 = compute tt ∧ computed out.2 = S (computed c) ∧
     (∀ e, In e (entries out.2) → key e = k → e = new) ∧
     (0 < max_entries → find_entry k (entries out.2) = Some new)).
Proof.
  intros out new. subst out new. split; [apply get_or_compute_hit|].
  intros Hmiss. rewrite (get_or_compute_miss _ _ _ _ _ _ Hmiss). simpl.
  split_and!; [done|done|..].
  - intros e [<-|Hin]%evict_In Hk; [done|].
    by apply remove_key_In in Hin as [_ Hne].
  - intros Hmax.
    edestruct (evict_head max_entries) as [es' Hes]; [exact Hmax|].
    rewrite Hes. unfold find_entry, has_key. simpl.
    by rewrite bool_decide_eq_true_2.
Qed.

End lru_facts.

(** The cached summary: a repeated request within the lifetime does not
    reach the language model. *)
Lemma get_summary_hit (model_llm : string → string) (seconds : Z)
    (maxsize : nat) (now : Z) (solution summary : string)
    (c : cache string string) :
  visible now solution c = Some summary →
  let out := kb.get_summary model_llm seconds maxsize now solution c in
  out.1 = summary ∧ computed out.2 = computed c.
Proof.
  intros Hvis out. subst out. unfold kb.get_summary.
  by destruct (get_or_compute_hit now solution
                 (λ _, kb.get_summary_body model_llm solution)
                 seconds maxsize c summary Hvis) as (? & ? & _).
Qed.

End lru_facts.

Module lru_examples.
Import lru examples lru_facts.

Lemma C9_get_or_compute_witness :
  (visible 5 "article" warm_cache = Some "old summary" ∧
   get_or_compute 5 "article" (λ _, "new summary") 10 128 warm_cache
   = ("old summary", warm_cache)) ∧
  (visible 15 "article" warm_cache = None ∧
   (get_or_compute 15 "article" (λ _, "new summary") 10 128 warm_cache).1
   = "new summary" ∧
   find_entry "article"
     (entries
        (get_or_compute 15 "article" (λ _, "new summary") 10 128
           warm_cache).2)
   = Some {| key := "article"; value := "new summary"; created_at := 15;
             ttl := 10 |}).
Proof.
  destruct (C9_get_or_compute 5 "article" (λ _, "new summary") 10 128
              warm_cache) as [Hhit _].
  destruct (C9_get_or_compute 15 "article" (λ _, "new summary") 10 128
              warm_cache) as [_ Hmiss].
  assert (visible 5 "article" warm_cache = Some "old summary") as Hlive
    by reflexivity.
  assert (visible 15 "article" warm_cache = None) as Hdead by reflexivity.
  split.
  - split; [exact Hlive|]. destruct (Hhit _ Hlive) as (_ & _ & _).
    reflexivity.
  - split; [exact Hdead|]. destruct (Hmiss Hdead) as (Hval & _ & _ & Hnew).
    split; [exact Hval|]. apply Hnew. lia.
Defined.

End lru_examples.

(** ** More on the factories and on [get_model] *)
Module factory_extras.
Import model_manager factory_spec.
Section factory_extras.
Context {C : Const}.

Lemma factories_lookup ty init :
  factories !! ty = Some init →
  (ty = PyStr CONFIG_OPENAI ∧ init = OpenAIFactory_init) ∨
  (ty = PyStr CONFIG_OLLAMA ∧ init = OllamaFactory_init) ∨
  (ty = PyStr CONFIG_LLAMACPP ∧ init = LlamaCppFactory_init) ∨
  (ty = PyStr CONFIG_HUGGINGFACE_PIPELINE ∧ init = HuggingFaceFactory_init).
Proof.
  unfold factories. rewrite !lookup_insert, lookup_empty.
  repeat case_decide; intros [= <-]; subst; tauto.
Qed.

Lemma factories_lookup_None ty :
  (∀ s, s ∈ type_names → ty ≠ PyStr s) → factories !! ty = None.
Proof.
  intros Hty. unfold factories.
  rewrite !lookup_insert_ne, lookup_empty; [done|..];
    (intros <-; eapply Hty; [|reflexivity]; unfold type_names;
     rewrite !elem_of_cons; tauto).
Qed.

(** X1.  A descriptor from which [get_model] builds a factory has one
    of the four type names, and the factory carries the descriptor's
    model; for the three local factories that model is non-empty, for
    the remote one the key is the descriptor's and is non-empty. *)
Theorem X1_get_model_accepted llm_config f :
  get_model llm_config = inr f →
  (∃ ty, llm_config !! CONFIG_TYPE = Some (PyStr ty) ∧ ty ∈ type_names) ∧
  llm_config !! CONFIG_MODEL = Some (factory_model f) ∧
  match f with
  | OpenAIFactory _ api_key =>
      llm_config !! CONFIG_LLM_OPENAI_API_KEY = Some api_key ∧
      truthy api_key = true
  | _ => truthy (factory_model f) = true
  end.
Proof.
  unfold get_model.
  destruct (llm_config !! CONFIG_TYPE) as [ty|] eqn:Hty; [|done].
  destruct (factories !! ty) as [init|] eqn:Hinit; [|done].
  intros Hf. split.
  { unfold type_names.
    destruct (factories_lookup _ _ Hinit) as [[-> _]|[[-> _]|[[-> _]|[-> _]]]];
      eexists; (split; [reflexivity|]); rewrite !elem_of_cons; tauto. }
  destruct (factories_lookup _ _ Hinit) as [[_ ->]|[[_ ->]|[[_ ->]|[_ ->]]]];
    revert Hf;
    unfold OpenAIFactory_init, OllamaFactory_init, LlamaCppFactory_init,
      HuggingFaceFactory_init, getitem;
    destruct (llm_config !! CONFIG_MODEL) as [model|]; try done.
  - destruct (llm_config !! CONFIG_LLM_OPENAI_API_KEY) as [k|]; [|done].
    destruct (truthy k) eqn:Hk; [|done]. by intros [= <-].
  - destruct (truthy model) eqn:Hm; [|done]. by intros [= <-].
  - destruct (truthy model) eqn:Hm; [|done]. by intros [= <-].
  - destruct (truthy model) eqn:Hm; [|done]. by intros [= <-].
Qed.

(** X2.  [get_model] raises [ValueError] for a descriptor without a
    type and, naming the type, for one whose type is none of the four;
    whatever it raises is a [ValueError], or the [KeyError] of a model
    or key entry that the descriptor does not have. *)
Theorem X2_get_model_errors llm_config :
  (llm_config !! CONFIG_TYPE = None →
     get_model llm_config
       = inl (ValueError ("The llm config doesn't contain " +:+ CONFIG_TYPE))) ∧
  (∀ ty, llm_config !! CONFIG_TYPE = Some ty →
     (∀ s, s ∈ type_names → ty ≠ PyStr s) →
     get_model llm_config = inl (ValueError ("Unknown llm type: " +:+ str ty))) ∧
  (∀ e, get_model llm_config = inl e →
     (∃ msg, e = ValueError msg) ∨
     (e = KeyError CONFIG_MODEL ∧ llm_config !! CONFIG_MODEL = None) ∨
     (e = KeyError CONFIG_LLM_OPENAI_API_KEY ∧
      llm_config !! CONFIG_LLM_OPENAI_API_KEY = None)).
Proof.
  unfold get_model. split_and!.
  - by intros ->.
  - intros ty -> Hty. by rewrite factories_lookup_None.
  - intros e.
    destruct (llm_config !! CONFIG_TYPE) as [ty|]; [|intros [= <-]; eauto].
    destruct (factories !! ty) as [init|] eqn:Hinit; [|intros [= <-]; eauto].
    destruct (factories_lookup _ _ Hinit) as [[_ ->]|[[_ ->]|[[_ ->]|[_ ->]]]];
      unfold OpenAIFactory_init, OllamaFactory_init, LlamaCppFactory_init,
        HuggingFaceFactory_init, getitem;
      (destruct (llm_config !! CONFIG_MODEL) as [model|];
         [|intros [= <-]; by eauto]).
    + destruct (llm_config !! CONFIG_LLM_OPENAI_API_KEY) as [k|];
        [|intros [= <-]; by eauto].
      destruct (truthy k); [done|]. intros [= <-]; eauto.
    + destruct (truthy model); [done|]. intros [= <-]; eauto.
    + destruct (truthy model); [done|]. intros [= <-]; eauto.
    + destruct (truthy model); [done|]. intros [= <-]; eauto.
Qed.

(** X3.  When the four type names are pairwise different, the factory
    [get_model] builds is of the class written under the descriptor's
    type. *)
Theorem X3_get_model_dispatch llm_config f :
  NoDup type_names →
  get_model llm_config = inr f →
  llm_config !! CONFIG_TYPE = Some (PyStr (factory_type f)).
Proof.
  unfold type_names. intros Hnd.
  apply NoDup_cons in Hnd as [H1 Hnd]. apply NoDup_cons in Hnd as [H2 Hnd].
  apply NoDup_cons in Hnd as [H3 _].
  rewrite !elem_of_cons in H1, H2, H3.
  unfold get_model.
  destruct (llm_config !! CONFIG_TYPE) as [ty|] eqn:Hty; [|done].
  unfold factories. rewrite !lookup_insert, lookup_empty.
  unfold OpenAIFactory_init, OllamaFactory_init, LlamaCppFactory_init,
    HuggingFaceFactory_init, getitem.
  repeat case_decide; subst; try done;
    destruct (llm_config !! CONFIG_MODEL) as [model|]; try done.
  - destruct (llm_config !! CONFIG_LLM_OPENAI_API_KEY) as [k|]; [|done].
    destruct (truthy k); [|done]. by intros [= <-].
  - destruct (truthy model); [|done]. by intros [= <-].
  - destruct (truthy model); [|done]. by intros [= <-].
  - destruct (truthy model); [|done]. by intros [= <-].
Qed.

(** X4.  The reworked factories against the ones of
    [lib/model_manager.py].  Whatever the reworked remote factory
    accepts the old one accepts with the same result, and the old one
    accepts more only by letting an empty model through; both raise
    [KeyError] on the same missing entries.  The reworked local factory
    accepts and rejects exactly what the old one does. *)
Theorem X4_reworked_factories llm_config :
  (∀ f, support_ai.openai_factory.OpenAIFactory_init llm_config = inr f →
        OpenAIFactory_init llm_config = inr f) ∧
  (∀ f, OpenAIFactory_init llm_config = inr f →
        truthy (factory_model f) = true →
        support_ai.openai_factory.OpenAIFactory_init llm_config = inr f) ∧
  (raises (OpenAIFactory_init llm_config) = true →
   raises (support_ai.openai_factory.OpenAIFactory_init llm_config) = true) ∧
  (∀ f, support_ai.llamacpp_factory.LlamaCppFactory_init llm_config = inr f ↔
        LlamaCppFactory_init llm_config = inr f) ∧
  (∀ k, support_ai.llamacpp_factory.LlamaCppFactory_init llm_config
          = inl (KeyError k) ↔
        LlamaCppFactory_init llm_config = inl (KeyError k)).
Proof.
  unfold support_ai.openai_factory.OpenAIFactory_init, OpenAIFactory_init,
    support_ai.llamacpp_factory.LlamaCppFactory_init, LlamaCppFactory_init,
    getitem.
  destruct (llm_config !! CONFIG_MODEL) as [model|]; [|done].
  destruct (truthy model) eqn:Hm; simpl.
  - destruct (llm_config !! CONFIG_LLM_OPENAI_API_KEY) as [k|]; [|done].
    by destruct (truthy k).
  - destruct (llm_config !! CONFIG_LLM_OPENAI_API_KEY) as [k|];
      [|by split_and!].
    destruct (truthy k); split_and!; try done.
    intros f [= <-]. simpl. congruence.
Qed.

End factory_extras.

Lemma X3_get_model_dispatch_witness :
  @get_model example_const examples.remote_llm
    = inr (OpenAIFactory (PyStr "gpt-4") (PyStr "sk-test")) ∧
  examples.remote_llm !! "type" = Some (PyStr "openai").
Proof.
  assert (@get_model example_const examples.remote_llm
          = inr (OpenAIFactory (PyStr "gpt-4") (PyStr "sk-test"))) as Hf
    by reflexivity.
  split; [exact Hf|].
  apply (@X3_get_model_dispatch example_const examples.remote_llm
           (OpenAIFactory (PyStr "gpt-4") (PyStr "sk-test"))); [|exact Hf].
  unfold type_names. simpl.
  repeat (apply NoDup_cons; split;
          [rewrite ?elem_of_cons, elem_of_nil; intros H; intuition discriminate|]).
  apply NoDup_nil_2.
Defined.

Lemma X1_get_model_accepted_witness :
  @get_model example_const examples.local_llm
    = inr (LlamaCppFactory (PyStr "/models/7b.gguf")) ∧
  examples.local_llm !! "model" = Some (PyStr "/models/7b.gguf").
Proof.
  assert (@get_model example_const examples.local_llm
          = inr (LlamaCppFactory (PyStr "/models/7b.gguf"))) as Hf
    by reflexivity.
  split; [exact Hf|].
  apply (@X1_get_model_accepted example_const examples.local_llm _ Hf).
Defined.

Lemma X2_get_model_errors_witness :
  @get_model example_const examples.bare_llm
    = inl (ValueError "The llm config doesn't contain type").
Proof.
  apply (@X2_get_model_errors example_const examples.bare_llm). reflexivity.
Defined.

Lemma X4_reworked_factories_witness :
  @OpenAIFactory_init example_const examples.remote_llm
    = inr (OpenAIFactory (PyStr "gpt-4") (PyStr "sk-test")).
Proof.
  destruct (@X4_reworked_factories example_const examples.remote_llm)
    as [Hold _].
  apply Hold. reflexivity.
Defined.

End factory_extras.

(** ** More on the registry *)
Module registry_extras.
Import model_manager registry_spec handle_spec factory_facts build_facts
  resolve_facts.
Section registry_extras.
Context {C : Const}.

Implicit Types (st : mm) (config : dict) (name : value).

(** *** What the built registry holds *)

Lemma new_loop_lookup llms : ∀ acc self,
  ModelManager.new_loop llms acc = inr self →
  ∀ name e,
    self !! name = Some e ↔
    acc !! name = Some e ∨
    ∃ llm : dict, llm ∈ llms ∧ llm !! CONFIG_NAME = Some name ∧
                  e = examples.blank_entry llm.
Proof.
  induction llms as [|llm llms IH]; intros acc self; cbn [ModelManager.new_loop].
  - intros [= <-] name e. split; [by left|].
    intros [H|(d & Hd & _)]; [done|]. by apply elem_of_nil in Hd.
  - destruct (llm !! CONFIG_NAME) as [n|] eqn:Hn; [|done].
    destruct (acc !! n) eqn:Hacc; [done|]. intros Hloop name e.
    rewrite (IH _ _ Hloop). split.
    + intros [Hins|(d & Hd & Hdn & ->)].
      * destruct (decide (n = name)) as [->|Hne].
        -- rewrite lookup_insert_eq in Hins. injection Hins as <-.
           right. exists llm. split_and!; [by left|done|done].
        -- rewrite lookup_insert_ne in Hins by done. by left.
      * right. exists d. split_and!; [by right|done|done].
    + intros [Hold|(d & Hd & Hdn & ->)].
      * left. rewrite lookup_insert_ne; [done|]. intros ->. congruence.
      * apply elem_of_cons in Hd as [->|Hd].
        -- left. assert (n = name) as -> by congruence.
           by rewrite lookup_insert_eq.
        -- right. exists d. done.
Qed.

(** X5.  The registry a first construction returns holds, under each
    name, the descriptor that has this name, with both handles empty,
    and it holds nothing else. *)
Theorem X5_new_content (config : gmap string (list dict)) llms self cls :
  config !! CONFIG_LLMS = Some llms →
  ModelManager.new config None = (inr self, cls) →
  ∀ name e,
    self !! name = Some e ↔
    ∃ llm : dict, llm ∈ llms ∧ llm !! CONFIG_NAME = Some name ∧
                  e = examples.blank_entry llm.
Proof.
  unfold ModelManager.new. intros ->.
  destruct (ModelManager.new_loop llms ∅) as [err|s] eqn:Hloop; [done|].
  intros [= <- _] name e. rewrite (new_loop_lookup _ _ _ Hloop), lookup_empty.
  split; [by intros [|]|by right].
Qed.

(** X6.  The order in which the descriptors are listed does not matter:
    two configurations whose lists are permutations of each other build
    the same registry, or both fail. *)
Theorem X6_new_order (config config' : gmap string (list dict)) llms llms' :
  config !! CONFIG_LLMS = Some llms →
  config' !! CONFIG_LLMS = Some llms' →
  llms ≡ₚ llms' →
  (∀ self, ModelManager.new config None = (inr self, Some self) →
           ModelManager.new config' None = (inr self, Some self)) ∧
  (raises (ModelManager.new config None).1 = true →
   is_ValueError (ModelManager.new config' None).1 = true).
Proof.
  intros Hc Hc' Hperm.
  assert (∀ l l' : list dict, l ≡ₚ l' →
            (∃ s, ModelManager.new_loop l ∅ = inr s) →
            ∃ s, ModelManager.new_loop l' ∅ = inr s) as Hsucc.
  { intros l l' Hp. rewrite !new_loop_succeeds. intros (Hall & Hnd & _).
    split_and!.
    - by rewrite <- Hp.
    - unfold names. by rewrite <- Hp.
    - intros. apply lookup_empty. }
  unfold ModelManager.new. rewrite Hc, Hc'. split.
  - intros self.
    destruct (ModelManager.new_loop llms ∅) as [err|s] eqn:Hloop; [done|].
    intros [= ->].
    destruct (Hsucc _ _ Hperm) as [s' Hloop']; [by eauto|].
    rewrite Hloop'. assert (s' = self) as ->; [|done].
    apply map_eq. intros name. apply option_eq. intros e.
    rewrite (new_loop_lookup _ _ _ Hloop), (new_loop_lookup _ _ _ Hloop').
    by setoid_rewrite Hperm.
  - destruct (ModelManager.new_loop llms' ∅) as [err'|s'] eqn:Hloop'.
    + intros _. simpl. by destruct (new_loop_error _ _ _ Hloop') as [msg ->].
    + destruct (Hsucc llms' llms) as [s Hloop]; [done|by eauto|].
      by rewrite Hloop.
Qed.

(** *** Invariants of a sequential execution *)

Section invariant.
Variable P : mm → Prop.
Hypothesis P_built_llm : ∀ st n e f,
  P st → models st !! n = Some e → LLM_INST e = None →
  get_model (LLM_CONFIG e) = inr f → P (built_llm st n f).
Hypothesis P_built_embeddings : ∀ st n e f,
  P st → models st !! n = Some e → EMBEDDINGS_INST e = None →
  get_model (LLM_CONFIG e) = inr f → P (built_embeddings st n f).

Lemma get_model_invariant config st :
  P st → P (ModelManager.get_model config st).2.
Proof.
  intros HP. rewrite get_model_eq.
  assert (P (ModelManager.get_llm config st).2) as HP1.
  { rewrite get_llm_eq.
    destruct (config !! CONFIG_LLM) as [n|]; [|done].
    destruct (models st !! n) as [e|] eqn:Hent; [|done].
    destruct (LLM_INST e) eqn:Hinst; [done|].
    destruct (get_model (LLM_CONFIG e)) eqn:Hf; [done|]. simpl. eauto. }
  destruct (ModelManager.get_llm config st) as [[err|l] st1]; [done|].
  simpl in HP1.
  assert (P (ModelManager.get_embeddings config st1).2) as HP2.
  { rewrite get_embeddings_eq.
    destruct (config !! CONFIG_EMBEDDINGS) as [n|]; [|done].
    destruct (models st1 !! n) as [e|] eqn:Hent; [|done].
    destruct (EMBEDDINGS_INST e) eqn:Hinst; [done|].
    destruct (get_model (LLM_CONFIG e)) eqn:Hf; [done|]. simpl. eauto. }
  by destruct (ModelManager.get_embeddings config st1) as [[err|e] st2].
Qed.

Lemma run_invariant reqs : ∀ st, P st → P (ModelManager.run reqs st).2.
Proof.
  induction reqs as [|config reqs IH]; intros st HP; simpl; [done|].
  pose proof (get_model_invariant config st HP) as HP1.
  destruct (ModelManager.get_model config st) as [r st1].
  specialize (IH st1 HP1).
  by destruct (ModelManager.run reqs st1) as [rs st2].
Qed.

End invariant.

Lemma handles_logged_built_llm st n e f :
  handles_logged st → models st !! n = Some e → LLM_INST e = None →
  handles_logged (built_llm st n f).
Proof.
  intros Hh Hent Hinst name h.
  rewrite llm_of_built_llm, embeddings_of_built_llm. unfold built_llm. simpl.
  destruct (Hh name h) as [Hl He]. split.
  - case_decide as Hn.
    + subst. rewrite Hent. simpl. intros [= <-].
      exists (create_llm f). rewrite lookup_app_r, Nat.sub_diag by done.
      split; [done|apply create_llm_is_llm].
    + intros H. destruct (Hl H) as (c & Hc & Hk). exists c.
      split; [|done]. by apply lookup_app_l_Some.
  - intros H. destruct (He H) as (c & Hc & Hk). exists c.
    split; [|done]. by apply lookup_app_l_Some.
Qed.

Lemma handles_logged_built_embeddings st n e f :
  handles_logged st → models st !! n = Some e → EMBEDDINGS_INST e = None →
  handles_logged (built_embeddings st n f).
Proof.
  intros Hh Hent Hinst name h.
  rewrite llm_of_built_embeddings, embeddings_of_built_embeddings.
  unfold built_embeddings. simpl.
  destruct (Hh name h) as [Hl He]. split.
  - intros H. destruct (Hl H) as (c & Hc & Hk). exists c.
    split; [|done]. by apply lookup_app_l_Some.
  - case_decide as Hn.
    + subst. rewrite Hent. simpl. intros [= <-].
      exists (create_embeddings f).
      rewrite lookup_app_r, Nat.sub_diag by done.
      split; [done|apply create_embeddings_is_embeddings].
    + intros H. destruct (He H) as (c & Hc & Hk). exists c.
      split; [|done]. by apply lookup_app_l_Some.
Qed.

Lemma fresh_blank (self : registry) name :
  (∀ n e, self !! n = Some e → blank e) →
  llm_of (fresh self) name = None ∧ embeddings_of (fresh self) name = None.
Proof.
  intros Hblank. unfold llm_of, embeddings_of, fresh. simpl.
  destruct (self !! name) as [e|] eqn:He; [|done]. exact (Hblank _ _ He).
Qed.

(** X7.  In every state a sequential execution reaches from a freshly
    built registry, a cached handle is the position of a constructor
    call made for its own name and of its own kind.  Hence two names
    never share a handle, and no handle serves both as a language model
    and as an embedding model. *)
Theorem X7_handles_distinct (config0 : gmap string (list dict)) self cls
    (reqs : list dict) :
  ModelManager.new config0 None = (inr self, cls) →
  let st := (ModelManager.run reqs (fresh self)).2 in
  handles_logged st ∧
  (∀ n1 n2 h, llm_of st n1 = Some h → llm_of st n2 = Some h → n1 = n2) ∧
  (∀ n1 n2 h,
     embeddings_of st n1 = Some h → embeddings_of st n2 = Some h → n1 = n2) ∧
  (∀ n1 n2 h, llm_of st n1 = Some h → embeddings_of st n2 ≠ Some h).
Proof.
  intros Hnew st.
  assert (handles_logged st) as Hh.
  { apply (run_invariant handles_logged).
    - intros. by eapply handles_logged_built_llm.
    - intros. by eapply handles_logged_built_embeddings.
    - intros name h.
      destruct (fresh_blank self name) as [-> ->]; [by eapply new_blank|].
      done. }
  split_and!; [done|..].
  - intros n1 n2 h H1 H2.
    destruct (Hh n1 h) as [Hl1 _]. destruct (Hh n2 h) as [Hl2 _].
    destruct (Hl1 H1) as (c1 & Hc1 & _). destruct (Hl2 H2) as (c2 & Hc2 & _).
    congruence.
  - intros n1 n2 h H1 H2.
    destruct (Hh n1 h) as [_ He1]. destruct (Hh n2 h) as [_ He2].
    destruct (He1 H1) as (c1 & Hc1 & _). destruct (He2 H2) as (c2 & Hc2 & _).
    congruence.
  - intros n1 n2 h H1 H2.
    destruct (Hh n1 h) as [Hl1 _]. destruct (Hh n2 h) as [_ He2].
    destruct (Hl1 H1) as (c1 & Hc1 & Hk1).
    destruct (He2 H2) as (c2 & Hc2 & Hk2). congruence.
Qed.

(** X8.  Every provider constructor call of a sequential execution was
    made for a registered name, and with exactly what the factory of
    that name's descriptor creates: no model is ever built from another
    backend's descriptor. *)
Theorem X8_built_from_descriptor (self : registry) (reqs : list dict) :
  from_descriptor (ModelManager.run reqs (fresh self)).2.
Proof.
  apply (run_invariant from_descriptor).
  - intros st n e f Hfd Hent Hinst Hf name c.
    rewrite config_of_built_llm. unfold built_llm. simpl.
    intros [Hin|Hin%list_elem_of_singleton]%elem_of_app; [by apply Hfd|].
    injection Hin as -> ->. exists (LLM_CONFIG e), f.
    unfold config_of. rewrite Hent. by eauto.
  - intros st n e f Hfd Hent Hinst Hf name c.
    rewrite config_of_built_embeddings. unfold built_embeddings. simpl.
    intros [Hin|Hin%list_elem_of_singleton]%elem_of_app; [by apply Hfd|].
    injection Hin as -> ->. exists (LLM_CONFIG e), f.
    unfold config_of. rewrite Hent. by eauto.
  - intros name c Hin. by apply elem_of_nil in Hin.
Qed.

Lemma llm_built_0 name (log : list (value * provider_call)) :
  llm_built name log = 0 → (name, true) ∉ call_key <$> log.
Proof.
  unfold llm_built. intros Hlen%nil_length_inv.
  intros (ev & Hkey & Hin)%list_elem_of_fmap.
  assert (ev ∈ filter (λ ev, ev.1 = name ∧ is_llm_call ev.2 = true) log) as H.
  { apply list_elem_of_filter. unfold call_key in Hkey.
    injection Hkey as -> Hk. done. }
  rewrite Hlen in H. by apply elem_of_nil in H.
Qed.

Lemma embeddings_built_0 name (log : list (value * provider_call)) :
  embeddings_built name log = 0 → (name, false) ∉ call_key <$> log.
Proof.
  unfold embeddings_built. intros Hlen%nil_length_inv.
  intros (ev & Hkey & Hin)%list_elem_of_fmap.
  assert (ev ∈ filter (λ ev, ev.1 = name ∧ is_llm_call ev.2 = false) log)
    as H.
  { apply list_elem_of_filter. unfold call_key in Hkey.
    injection Hkey as -> Hk. done. }
  rewrite Hlen in H. by apply elem_of_nil in H.
Qed.

Lemma NoDup_snoc {A} (l : list A) x : NoDup l → x ∉ l → NoDup (l ++ [x]).
Proof.
  intros Hnd Hx. apply NoDup_app. split_and!; [done| |apply NoDup_singleton].
  intros y Hy ->%list_elem_of_singleton. done.
Qed.

(** X9.  However many requests a sequential execution serves, it makes
    at most one constructor call per registered name and kind, so never
    more than two per registered backend in all; and the registered
    names stay the ones the registry was built with. *)
Theorem X9_constructions_bounded (config0 : gmap string (list dict)) self cls
    (reqs : list dict) :
  ModelManager.new config0 None = (inr self, cls) →
  let st := (ModelManager.run reqs (fresh self)).2 in
  NoDup (call_key <$> ctor_log st) ∧
  dom (models st) = dom self ∧
  length (ctor_log st) ≤ 2 * size self.
Proof.
  intros Hnew st.
  pose (Q := λ s : mm,
          counted s ∧ NoDup (call_key <$> ctor_log s) ∧
          (∀ ev, ev ∈ ctor_log s → is_Some (models s !! ev.1)) ∧
          dom (models s) = dom self).
  assert (Q st) as (_ & Hnd & Hreg & Hdom).
  { apply (run_invariant Q).
    - intros s n e f (Hc & Hnd & Hreg & Hdom) Hent Hinst Hf. split_and!.
      + by eapply counted_built_llm.
      + unfold built_llm. simpl. rewrite fmap_app. apply NoDup_snoc; [done|].
        unfold call_key. simpl. rewrite create_llm_is_llm.
        apply llm_built_0. destruct (Hc n) as [-> _].
        unfold llm_of. rewrite Hent. simpl. by rewrite Hinst.
      + unfold built_llm. simpl. intros ev.
        rewrite lookup_alter_is_Some.
        intros [Hin|Hin%list_elem_of_singleton]%elem_of_app; [by apply Hreg|].
        subst ev. simpl. by rewrite Hent.
      + unfold built_llm. simpl. by rewrite dom_alter_L.
    - intros s n e f (Hc & Hnd & Hreg & Hdom) Hent Hinst Hf. split_and!.
      + by eapply counted_built_embeddings.
      + unfold built_embeddings. simpl. rewrite fmap_app.
        apply NoDup_snoc; [done|].
        unfold call_key. simpl. rewrite create_embeddings_is_embeddings.
        apply embeddings_built_0. destruct (Hc n) as [_ ->].
        unfold embeddings_of. rewrite Hent. simpl. by rewrite Hinst.
      + unfold built_embeddings. simpl. intros ev.
        rewrite lookup_alter_is_Some.
        intros [Hin|Hin%list_elem_of_singleton]%elem_of_app; [by apply Hreg|].
        subst ev. simpl. by rewrite Hent.
      + unfold built_embeddings. simpl. by rewrite dom_alter_L.
    - split_and!; [|constructor| |done].
      + apply counted_fresh. by eapply new_blank.
      + intros ev Hin. by apply elem_of_nil in Hin. }
  split_and!; [done|done|].
  set (ns := elements (dom self)).
  assert (call_key <$> ctor_log st
          ⊆+ ((λ n, (n, true)) <$> ns) ++ ((λ n, (n, false)) <$> ns)) as Hsub.
  { apply NoDup_submseteq; [done|]. intros [n b].
    intros (ev & Hkey & Hin)%list_elem_of_fmap.
    assert (n ∈ ns) as Hn.
    { apply elem_of_elements. rewrite <- Hdom. apply elem_of_dom.
      unfold call_key in Hkey. injection Hkey as -> _. by apply Hreg. }
    apply elem_of_app. destruct b; [left|right];
      apply list_elem_of_fmap; by exists n. }
  apply submseteq_length in Hsub.
  rewrite length_app, !length_fmap in Hsub.
  assert (length ns = size self) as Hlen.
  { unfold ns. rewrite <- size_dom. done. }
  lia.
Qed.

(** X10.  A request that has been served is served again, at once, with
    the same bundle and without any change: everything it needs is
    cached. *)
Theorem X10_get_model_again config st m st' :
  ModelManager.get_model config st = (inr m, st') →
  ModelManager.get_model config st' = (inr m, st').
Proof.
  intros Hstep.
  destruct (get_model_step _ _ _ _ Hstep) as (_ & _ & _ & _ & Hr).
  destruct (Hr m eq_refl) as [[Hl Hsl] [He Hse]].
  rewrite get_model_eq, get_llm_eq.
  assert (match config !! CONFIG_LLM with
          | None => llm m = None
          | Some n => ∃ e h, models st' !! n = Some e ∧ LLM_INST e = Some h ∧
                             llm m = Some h
          end) as Hcl.
  { destruct (config !! CONFIG_LLM) as [n|]; [|done].
    destruct Hsl as [h Hh]; [by eauto|]. rewrite Hh in Hl. simpl in Hl.
    unfold llm_of in Hl. destruct (models st' !! n) as [e|]; [|done].
    exists e, h. done. }
  assert (match config !! CONFIG_EMBEDDINGS with
          | None => embeddings m = None
          | Some n => ∃ e h, models st' !! n = Some e ∧
                             EMBEDDINGS_INST e = Some h ∧
                             embeddings m = Some h
          end) as Hce.
  { destruct (config !! CONFIG_EMBEDDINGS) as [n|]; [|done].
    destruct Hse as [h Hh]; [by eauto|]. rewrite Hh in He. simpl in He.
    unfold embeddings_of in He. destruct (models st' !! n) as [e|]; [|done].
    exists e, h. done. }
  destruct m as [ml me]. simpl in *.
  destruct (config !! CONFIG_LLM) as [n|].
  - destruct Hcl as (e & h & -> & -> & ->). rewrite get_embeddings_eq.
    destruct (config !! CONFIG_EMBEDDINGS) as [n'|].
    + by destruct Hce as (e' & h' & -> & -> & ->).
    + by rewrite Hce.
  - rewrite Hcl, get_embeddings_eq.
    destruct (config !! CONFIG_EMBEDDINGS) as [n'|].
    + by destruct Hce as (e' & h' & -> & -> & ->).
    + by rewrite Hce.
Qed.

(** X11.  The bundle of a served request has a language-model handle
    exactly when the request names a language model, and an embedding
    handle exactly when it names an embedding model; a request that
    names neither is served with an empty bundle and changes nothing. *)
Theorem X11_bundle_shape config st m st' :
  ModelManager.get_model config st = (inr m, st') →
  (is_Some (llm m) ↔ is_Some (config !! CONFIG_LLM)) ∧
  (is_Some (embeddings m) ↔ is_Some (config !! CONFIG_EMBEDDINGS)) ∧
  (config !! CONFIG_LLM = None → config !! CONFIG_EMBEDDINGS = None →
   m = {| llm := None; embeddings := None |} ∧ st' = st).
Proof.
  intros Hstep.
  destruct (get_model_step _ _ _ _ Hstep) as (_ & _ & _ & _ & Hr).
  destruct (Hr m eq_refl) as [[Hl Hsl] [He Hse]]. split_and!.
  - split; [|done]. rewrite Hl.
    destruct (config !! CONFIG_LLM); [by eauto|]. by intros [? [=]].
  - split; [|done]. rewrite He.
    destruct (config !! CONFIG_EMBEDDINGS); [by eauto|]. by intros [? [=]].
  - intros Hnl Hne. revert Hstep.
    rewrite get_model_eq, get_llm_eq, Hnl, get_embeddings_eq, Hne.
    by intros [= <- <-].
Qed.

(** X18.  Whatever requests are made, served or not, from whatever
    state: the descriptors stay as registered, a handle that is cached
    is never replaced or dropped, and the record of constructor calls
    only grows at its end, so that handles handed out earlier keep
    denoting the same objects. *)
Theorem X18_handles_never_replaced (reqs : list dict) st :
  let st' := (ModelManager.run reqs st).2 in
  kept st st' ∧ ctor_log st `prefix_of` ctor_log st'.
Proof.
  intros st'. subst st'. split.
  - destruct (ModelManager.run reqs st) as [results st'] eqn:Hrun.
    by destruct (run_spec _ _ _ _ Hrun) as [Hk _].
  - apply (run_invariant (λ s, ctor_log st `prefix_of` ctor_log s)).
    + intros s n e f Hp _ _ _. unfold built_llm. simpl.
      by apply prefix_app_r.
    + intros s n e f Hp _ _ _. unfold built_embeddings. simpl.
      by apply prefix_app_r.
    + done.
Qed.

End registry_extras.
End registry_extras.

(** ** More on the session memory manager *)
Module memory_extras.
Import memory memory_spec memory_ops memory_facts.
Section memory_extras.
Context {C : Const}.
Variable llm_invoke : nat → list message → string.
Variable load_memory_variables : string → list message → list message.
Variable prune : string → list message → string.

Implicit Types (st : Memory * env) (session query context : string).

Abbreviation integrate' :=
  (integrate llm_invoke load_memory_variables prune).

(** [integrate], in terms of [__get_session_memory]. *)
Lemma integrate_eq session query context st :
  integrate' session query context st =
  let got := get_session_memory session st in
  let m := got.1 in
  let answer :=
    llm_invoke (llm_calls got.2.2)
      (prompt (load_memory_variables (moving_summary_buffer m)
                 (messages got.2.2 (chat_memory m))) context query) in
  let msgs := messages got.2.2 (chat_memory m) ++ turn query answer in
  (answer,
   ({| db_connection := db_connection got.2.1;
       session_memories :=
         <[session := {| oid := oid m; chat_memory := chat_memory m;
                         moving_summary_buffer :=
                           prune (moving_summary_buffer m) msgs |}]>
           (session_memories got.2.1) |},
    {| store := <[chat_memory m := msgs]> (store got.2.2);
       history_ctor := history_ctor got.2.2;
       allocated := allocated got.2.2;
       llm_calls := S (llm_calls got.2.2) |})).
Proof.
  unfold integrate.
  by destruct (get_session_memory session st) as [m [self1 e1]].
Qed.

Lemma sound_get_session_memory session st :
  sound st → sound (get_session_memory session st).2.
Proof.
  intros (Hwf & Hlt & Hinj).
  destruct (session_memories st.1 !! session) as [m|] eqn:Hm.
  { by rewrite (get_session_memory_cached _ _ _ Hm). }
  rewrite (get_session_memory_new _ _ Hm). split_and!; simpl.
  - intros s m'. simpl. destruct (decide (session = s)) as [->|Hne].
    + rewrite lookup_insert_eq. by intros [= <-].
    + rewrite lookup_insert_ne by done. apply Hwf.
  - intros s m'. destruct (decide (session = s)) as [->|Hne].
    + rewrite lookup_insert_eq. intros [= <-]. simpl. lia.
    + rewrite lookup_insert_ne by done. intros H%Hlt. lia.
  - intros s1 s2 m1 m2.
    destruct (decide (session = s1)) as [<-|Hne1];
      destruct (decide (session = s2)) as [<-|Hne2]; [done|..].
    + rewrite lookup_insert_eq, lookup_insert_ne by done.
      intros [= <-] H%Hlt. simpl. lia.
    + rewrite lookup_insert_eq, lookup_insert_ne by done.
      intros H%Hlt [= <-]. simpl. lia.
    + rewrite !lookup_insert_ne by done. apply Hinj.
Qed.

Lemma sound_integrate session query context st :
  sound st → sound (integrate' session query context st).2.
Proof.
  intros Hs. rewrite integrate_eq. cbv zeta.
  pose proof (sound_get_session_memory session st Hs) as (Hwf & Hlt & Hinj).
  pose proof (get_session_memory_lookup session st) as Hlook.
  destruct (get_session_memory session st) as [m [self1 e1]]. simpl in *.
  split_and!; simpl.
  - intros s m'. simpl. destruct (decide (session = s)) as [->|Hne].
    + rewrite lookup_insert_eq. intros [= <-]. simpl. by apply Hwf.
    + rewrite lookup_insert_ne by done. apply Hwf.
  - intros s m'. destruct (decide (session = s)) as [->|Hne].
    + rewrite lookup_insert_eq. intros [= <-]. simpl. by eapply Hlt.
    + rewrite lookup_insert_ne by done. apply Hlt.
  - intros s1 s2 m1 m2.
    destruct (decide (session = s1)) as [<-|Hne1];
      destruct (decide (session = s2)) as [<-|Hne2]; [done|..].
    + rewrite lookup_insert_eq, lookup_insert_ne by done.
      intros [= <-] H2. simpl. by apply Hinj.
    + rewrite lookup_insert_eq, lookup_insert_ne by done.
      intros H1 [= <-]. simpl. by apply Hinj.
    + rewrite !lookup_insert_ne by done. apply Hinj.
Qed.

Lemma sound_clear session st : sound st → sound (clear session st).2.
Proof. rewrite clear_eq. by intros (Hwf & Hlt & Hinj). Qed.

(** X12.  Whatever calls of [integrate] and [clear] follow the
    construction of the manager, every cached memory object is bound to
    the history of the session it is cached for, and two sessions never
    share an object. *)
Theorem X12_sessions_isolated (config : dict) self (e0 : env)
    (rs : list request) :
  init config = inr self →
  sound (exec llm_invoke load_memory_variables prune rs (self, e0)).
Proof.
  intros Hinit.
  assert (sound (self, e0)) as Hs.
  { unfold init in Hinit.
    destruct (config !! CONFIG_DB_CONNECTION); [|done].
    injection Hinit as <-. split_and!; simpl; intros *;
      by rewrite ?lookup_empty. }
  clear Hinit. revert Hs. generalize (self, e0). unfold exec.
  induction rs as [|r rs IH]; intros st Hs; [done|]. simpl. apply IH.
  destruct r as [session query context|session]; simpl.
  - by apply sound_integrate.
  - by apply sound_clear.
Qed.

Lemma integrate_messages session query context st :
  wf st.1 →
  let out := integrate' session query context st in
  messages out.2.2 session = messages st.2 session ++ turn query out.1 ∧
  (∀ s, s ≠ session → messages out.2.2 s = messages st.2 s) ∧
  llm_calls out.2.2 = S (llm_calls st.2) ∧
  wf out.2.1.
Proof.
  intros Hwf out. subst out. rewrite integrate_eq. cbv zeta.
  pose proof (wf_get_session_memory session st Hwf) as [Hwf1 Hbound].
  pose proof (get_session_memory_store session st) as [Hstore Hcalls].
  destruct (get_session_memory session st) as [m [self1 e1]].
  simpl in *. subst session. unfold messages in *. simpl.
  rewrite Hstore, Hcalls, lookup_insert_eq. simpl.
  split_and!; [done| |done|].
  - intros s Hne. by rewrite lookup_insert_ne.
  - intros s m'. simpl. destruct (decide (chat_memory m = s)) as [<-|Hne].
    + rewrite lookup_insert_eq. by intros [= <-].
    + rewrite lookup_insert_ne by done. apply Hwf1.
Qed.

(** X13.  Calls of [integrate] for one session append their turns to
    the persisted history of that session in the order of the calls,
    each turn being the query and the answer returned for it; the
    language model is invoked once per call and the histories of the
    other sessions are not touched. *)
Theorem X13_history_accumulates session (turns : list (string * string)) :
  ∀ st, wf st.1 →
  let out :=
    integrate_all llm_invoke load_memory_variables prune session turns st in
  length out.1 = length turns ∧
  messages out.2.2 session
    = messages st.2 session
        ++ List.concat (zip_with (λ qc answer, turn qc.1 answer) turns out.1) ∧
  (∀ s, s ≠ session → messages out.2.2 s = messages st.2 s) ∧
  llm_calls out.2.2 = llm_calls st.2 + length turns ∧
  wf out.2.1.
Proof.
  induction turns as [|[query context] turns IH]; intros st Hwf; simpl.
  { rewrite app_nil_r. split_and!; [done..|lia|done]. }
  destruct (integrate_messages session query context st Hwf)
    as (Hm & Ho & Hc & Hwf1).
  destruct (integrate' session query context st) as [answer st1].
  specialize (IH st1 Hwf1). simpl in IH.
  destruct (integrate_all llm_invoke load_memory_variables prune session
              turns st1) as [answers st2].
  simpl in *. destruct IH as (Hlen & Hm2 & Ho2 & Hc2 & Hwf2).
  split_and!; [by rewrite Hlen| |..|lia|done].
  - rewrite Hm2, Hm. by rewrite <- !app_assoc.
  - intros s Hne. rewrite Ho2 by done. by apply Ho.
Qed.

(** X14.  [integrate] never replaces the memory object of a session:
    for a cached session the object cached afterwards has the same
    identity and no history object is constructed; for a new session
    one history object is constructed and the new memory object gets a
    fresh identity; the objects cached for other sessions are left as
    they are. *)
Theorem X14_integrate_keeps_object session query context st :
  let out :=
    integrate llm_invoke load_memory_variables prune
      session query context st in
  (∀ m, session_memories st.1 !! session = Some m →
     (∃ m', session_memories out.2.1 !! session = Some m' ∧
            oid m' = oid m ∧ chat_memory m' = chat_memory m) ∧
     history_ctor out.2.2 = history_ctor st.2 ∧
     allocated out.2.2 = allocated st.2) ∧
  (session_memories st.1 !! session = None →
     (∃ m', session_memories out.2.1 !! session = Some m' ∧
            oid m' = allocated st.2 ∧ chat_memory m' = session) ∧
     history_ctor out.2.2 = history_ctor st.2 ++ [session] ∧
     allocated out.2.2 = S (allocated st.2)) ∧
  (∀ s, s ≠ session →
     session_memories out.2.1 !! s = session_memories st.1 !! s).
Proof.
  intros out. subst out. rewrite integrate_eq. cbv zeta.
  destruct (session_memories st.1 !! session) as [m|] eqn:Hm.
  - rewrite (get_session_memory_cached _ _ _ Hm). simpl. split_and!.
    + intros ? [= <-]. split_and!; [|done..].
      eexists. by rewrite lookup_insert_eq.
    + done.
    + intros s Hne. by rewrite lookup_insert_ne.
  - rewrite (get_session_memory_new _ _ Hm). simpl. split_and!.
    + done.
    + intros _. split_and!; [|done..].
      eexists. by rewrite lookup_insert_eq.
    + intros s Hne. by rewrite !lookup_insert_ne.
Qed.

(** X15.  A call of [clear], which raises, resets nothing: the next
    [integrate], of whatever session, returns the answer, leaves the
    manager and persists the messages that it would have without the
    call of [clear]. *)
Theorem X15_clear_keeps_history cleared session query context st :
  let out :=
    integrate llm_invoke load_memory_variables prune
      session query context (clear cleared st).2 in
  let ref :=
    integrate llm_invoke load_memory_variables prune
      session query context st in
  out.1 = ref.1 ∧ out.2.1 = ref.2.1 ∧ store out.2.2 = store ref.2.2 ∧
  llm_calls out.2.2 = llm_calls ref.2.2.
Proof.
  intros out ref. subst out ref. rewrite clear_eq. destruct st as [self e].
  unfold integrate, get_session_memory. simpl.
  by destruct (session_memories self !! session) as [m|].
Qed.

End memory_extras.
End memory_extras.

(** ** More on the knowledge-base source *)
Module kb_extras.
Import kb_source.

Lemma string_app_assoc (s1 s2 s3 : string) :
  (s1 +:+ s2) +:+ s3 = s1 +:+ (s2 +:+ s3).
Proof.
  induction s1 as [|a s1 IH]; [done|].
  change (String a ((s1 +:+ s2) +:+ s3) = String a (s1 +:+ (s2 +:+ s3))).
  by rewrite IH.
Qed.

Lemma nonempty_app (s1 s2 : string) :
  nonempty s1 = true → nonempty (s1 +:+ s2) = true.
Proof. by destruct s1. Qed.

Section kb_extras.
Context {KC : KbConst}.
Variable date : Type.
Variable isoformat : date → string.

Lemma build_clause_join (rest : list string) : ∀ clause,
  nonempty clause = true →
  build_clause rest clause = String.concat " AND " (clause :: rest).
Proof.
  induction rest as [|c rest IH]; intros clause Hne; [done|].
  cbn [build_clause]. rewrite Hne, IH by (by apply nonempty_app, nonempty_app).
  destruct rest as [|c' rest]; cbn [String.concat].
  - by rewrite string_app_assoc.
  - by rewrite !string_app_assoc.
Qed.

(** X16.  The article query always has a [WHERE] clause: it is the
    fixed [SELECT] followed by the conditions joined with [AND], the
    bounds on the modification date that were given first and the two
    publication filters last.  The branch without [WHERE] is never
    taken. *)
Theorem X16_sql_cmd (start_date end_date : option date) :
  sql_cmd date isoformat start_date end_date
  = "SELECT Id, KnowledgeArticleId, Title, Summary FROM Knowledge__kav WHERE "
      +:+ String.concat " AND " (conditions date isoformat start_date end_date)
  ∧ ∃ bounds,
      conditions date isoformat start_date end_date
      = bounds ++ ["Knowledge_1_Approval_Status__c = 'Approval Complete'";
                   "PublishStatus = 'Online'"]
      ∧ length bounds
        = match start_date with Some _ => 1 | None => 0 end
          + match end_date with Some _ => 1 | None => 0 end.
Proof.
  split.
  - unfold sql_cmd.
    assert (∃ c rest, conditions date isoformat start_date end_date = c :: rest
                      ∧ nonempty c = true) as (c & rest & -> & Hc).
    { unfold conditions. destruct start_date, end_date; simpl; by eauto. }
    assert (build_clause (c :: rest) ""
            = String.concat " AND " (c :: rest)) as ->.
    { cbn [build_clause]. change (nonempty "") with false. cbv iota.
      change ("" +:+ c) with c. by apply build_clause_join. }
    cbv zeta.
    assert (nonempty (String.concat " AND " (c :: rest)) = true) as ->.
    { cbn [String.concat]. destruct rest; [done|]. by apply nonempty_app. }
    done.
  - unfold conditions. destruct start_date as [d1|], end_date as [d2|]; simpl.
    + by eexists [_; _].
    + by eexists [_].
    + by eexists [_].
    + by exists [].
Qed.

(** X17.  [get_authentication] returns a result exactly when the three
    entries are present, and the result then holds exactly the user
    name, the password and the token, whatever else the configuration
    has; otherwise it raises the [ValueError] that names the first
    entry missing, in the order user name, password, token. *)
Theorem X17_get_authentication (auth_config : dict) :
  (∀ auth, get_authentication auth_config = inr auth →
     ∃ username password token,
       auth_config !! CONFIG_USERNAME = Some username ∧
       auth_config !! CONFIG_PASSWORD = Some password ∧
       auth_config !! CONFIG_TOKEN = Some token ∧
       auth !! "username" = Some username ∧
       auth !! "password" = Some password ∧
       auth !! "security_token" = Some token ∧
       dom auth = {["username"; "password"; "security_token"]}) ∧
  (∀ e, get_authentication auth_config = inl e →
     ∃ missing,
       e = ValueError ("The auth config doesn't contain " +:+ missing) ∧
       auth_config !! missing = None ∧
       (missing = CONFIG_USERNAME ∨
        (missing = CONFIG_PASSWORD ∧
         is_Some (auth_config !! CONFIG_USERNAME)) ∨
        (missing = CONFIG_TOKEN ∧
         is_Some (auth_config !! CONFIG_USERNAME) ∧
         is_Some (auth_config !! CONFIG_PASSWORD)))) ∧
  (is_Some (auth_config !! CONFIG_USERNAME) →
   is_Some (auth_config !! CONFIG_PASSWORD) →
   is_Some (auth_config !! CONFIG_TOKEN) →
   raises (get_authentication auth_config) = false).
Proof.
  unfold get_authentication.
  destruct (auth_config !! CONFIG_USERNAME) as [u|] eqn:Hu.
  2:{ split_and!; [done| |by intros [? [=]]].
      intros e [= <-]. exists CONFIG_USERNAME. by eauto. }
  destruct (auth_config !! CONFIG_PASSWORD) as [p|] eqn:Hp.
  2:{ split_and!; [done| |by intros _ [? [=]]].
      intros e [= <-]. exists CONFIG_PASSWORD. by eauto 10. }
  destruct (auth_config !! CONFIG_TOKEN) as [t|] eqn:Ht.
  2:{ split_and!; [done| |by intros _ _ [? [=]]].
      intros e [= <-]. exists CONFIG_TOKEN. by eauto 10. }
  split_and!; [|done..].
  intros auth [= <-]. exists u, p, t. split_and!; [done..|].
  rewrite !dom_insert_L, dom_empty_L. set_solver.
Qed.

End kb_extras.
End kb_extras.

(** ** Closed instances of the further properties *)
Module extras_examples.
Import model_manager registry_spec handle_spec examples more_examples.
Import registry_extras.
#[local] Existing Instance example_const.

Lemma build_example_again :
  ModelManager.new example_config None
    = (inr example_registry, Some example_registry).
Proof. reflexivity. Qed.

Lemma X5_new_content_witness :
  example_config !! CONFIG_LLMS = Some [local_llm; remote_llm] ∧
  ModelManager.new example_config None
    = (inr example_registry, Some example_registry) ∧
  ∃ llm : dict,
    llm ∈ [local_llm; remote_llm] ∧ llm !! CONFIG_NAME = Some (PyStr "remote") ∧
    blank_entry remote_llm = blank_entry llm.
Proof.
  assert (example_config !! CONFIG_LLMS = Some [local_llm; remote_llm])
    as Hl by reflexivity.
  split; [exact Hl|]. split; [exact build_example_again|].
  apply (X5_new_content example_config [local_llm; remote_llm]
           example_registry (Some example_registry) Hl build_example_again
           (PyStr "remote") (blank_entry remote_llm)).
  reflexivity.
Defined.

Lemma X6_new_order_witness :
  example_config !! CONFIG_LLMS = Some [local_llm; remote_llm] ∧
  swapped_config !! CONFIG_LLMS = Some [remote_llm; local_llm] ∧
  [local_llm; remote_llm] ≡ₚ [remote_llm; local_llm] ∧
  ModelManager.new swapped_config None
    = (inr example_registry, Some example_registry).
Proof.
  assert (example_config !! CONFIG_LLMS = Some [local_llm; remote_llm])
    as Hl by reflexivity.
  assert (swapped_config !! CONFIG_LLMS = Some [remote_llm; local_llm])
    as Hl' by reflexivity.
  assert ([local_llm; remote_llm] ≡ₚ [remote_llm; local_llm]) as Hp
    by apply perm_swap.
  split; [exact Hl|]. split; [exact Hl'|]. split; [exact Hp|].
  destruct (X6_new_order example_config swapped_config _ _ Hl Hl' Hp)
    as [Hsame _].
  apply Hsame. exact build_example_again.
Defined.

Lemma X7_handles_distinct_witness :
  ModelManager.new example_config None
    = (inr example_registry, Some example_registry) ∧
  handles_logged
    (ModelManager.run [both_request "local" "local"; llm_request "remote"]
       (fresh example_registry)).2.
Proof.
  split; [exact build_example_again|].
  apply (X7_handles_distinct example_config example_registry
           (Some example_registry)
           [both_request "local" "local"; llm_request "remote"]
           build_example_again).
Defined.

Lemma X9_constructions_bounded_witness :
  ModelManager.new example_config None
    = (inr example_registry, Some example_registry) ∧
  length
    (ctor_log
       (ModelManager.run
          [both_request "local" "local"; llm_request "remote";
           both_request "local" "remote"; llm_request "local"]
          (fresh example_registry)).2)
  ≤ 2 * size example_registry.
Proof.
  split; [exact build_example_again|].
  apply (X9_constructions_bounded example_config example_registry
           (Some example_registry)
           [both_request "local" "local"; llm_request "remote";
            both_request "local" "remote"; llm_request "local"]
           build_example_again).
Defined.

Lemma X10_get_model_again_witness :
  ModelManager.get_model (llm_request "local") example_state
    = (inr {| llm := Some 0; embeddings := None |}, resolved_state) ∧
  ModelManager.get_model (llm_request "local") resolved_state
    = (inr {| llm := Some 0; embeddings := None |}, resolved_state).
Proof.
  assert (ModelManager.get_model (llm_request "local") example_state
          = (inr {| llm := Some 0; embeddings := None |}, resolved_state))
    as Hfirst by reflexivity.
  split; [exact Hfirst|].
  exact (X10_get_model_again _ _ _ _ Hfirst).
Defined.

Lemma X11_bundle_shape_witness :
  ModelManager.get_model (llm_request "local") example_state
    = (inr {| llm := Some 0; embeddings := None |}, resolved_state) ∧
  (is_Some (Some 0) ↔ is_Some (llm_request "local" !! CONFIG_LLM)).
Proof.
  assert (ModelManager.get_model (llm_request "local") example_state
          = (inr {| llm := Some 0; embeddings := None |}, resolved_state))
    as Hfirst by reflexivity.
  split; [exact Hfirst|].
  exact (proj1 (X11_bundle_shape _ _ _ _ Hfirst)).
Defined.

End extras_examples.

Module memory_extras_examples.
Import memory memory_spec memory_ops examples more_examples memory_extras.
#[local] Existing Instance example_const.

(** One turn of a session, a [clear] of it, which raises, and one turn
    of another session: both sessions are cached, with different
    objects, and the first keeps its turn. *)
Example exec_example :
  let st := exec example_llm example_load example_prune example_requests
              (example_memory, example_env) in
  session_memories st.1 !! "s1"
    = Some {| oid := 0; chat_memory := "s1"; moving_summary_buffer := "" |} ∧
  session_memories st.1 !! "s2"
    = Some {| oid := 1; chat_memory := "s2"; moving_summary_buffer := "" |} ∧
  messages st.2 "s1" = [HumanMessage "What is X?"; AIMessage "X is a letter"] ∧
  history_ctor st.2 = ["s1"; "s1"; "s2"].
Proof. split_and!; reflexivity. Qed.

Lemma X12_sessions_isolated_witness :
  init memory_config = inr example_memory ∧
  sound
    (exec example_llm example_load example_prune example_requests
       (example_memory, example_env)).
Proof.
  assert (init memory_config = inr example_memory) as Hinit by reflexivity.
  split; [exact Hinit|].
  exact (X12_sessions_isolated example_llm example_load example_prune
           memory_config example_memory example_env example_requests Hinit).
Defined.

Lemma X13_history_accumulates_witness :
  wf example_memory ∧
  messages
    (integrate_all example_llm example_load example_prune "s1"
       [("What is X?", "X is defined as ..."); ("And Y?", "Y is ...")]
       (example_memory, example_env)).2.2 "s1"
  = [HumanMessage "What is X?"; AIMessage "X is a letter";
     HumanMessage "And Y?"; AIMessage "X is a letter"].
Proof.
  assert (wf (example_memory, example_env).1) as Hwf.
  { intros session m H. discriminate H. }
  split; [exact Hwf|].
  destruct (X13_history_accumulates example_llm example_load example_prune
              "s1" [("What is X?", "X is defined as ..."); ("And Y?", "Y is ...")]
              (example_memory, example_env) Hwf) as (_ & Hm & _).
  exact Hm.
Defined.

Lemma X14_integrate_keeps_object_witness :
  session_memories (example_memory, example_env).1 !! "s1" = None ∧
  history_ctor
    (integrate example_llm example_load example_prune
       "s1" "What is X?" "X is defined as ..."
       (example_memory, example_env)).2.2 = ["s1"].
Proof.
  assert (session_memories (example_memory, example_env).1 !! "s1" = None)
    as Hnone by reflexivity.
  split; [exact Hnone|].
  destruct (X14_integrate_keeps_object example_llm example_load example_prune
              "s1" "What is X?" "X is defined as ..."
              (example_memory, example_env)) as (_ & Hnew & _).
  destruct (Hnew Hnone) as (_ & Hctor & _). exact Hctor.
Defined.

End memory_extras_examples.

Module kb_extras_examples.
Import kb_source kb_examples_data kb_extras.
#[local] Existing Instance example_kb_const.

Lemma X17_get_authentication_witness :
  get_authentication example_auth
    = inr (<["security_token" := PyStr "t0k3n"]>
             (<["password" := PyStr "secret"]>
                (<["username" := PyStr "agent"]> ∅))) ∧
  (<["security_token" := PyStr "t0k3n"]>
     (<["password" := PyStr "secret"]>
        (<["username" := PyStr "agent"]> (∅ : dict)))) !! "domain" = None ∧
  is_ValueError (get_authentication (delete "password" example_auth)) = true.
Proof.
  assert (get_authentication example_auth
          = inr (<["security_token" := PyStr "t0k3n"]>
                   (<["password" := PyStr "secret"]>
                      (<["username" := PyStr "agent"]> ∅)))) as Hok
    by reflexivity.
  split; [exact Hok|].
  destruct (X17_get_authentication example_auth) as [Hres _].
  destruct (Hres _ Hok) as (u & p & t & _ & _ & _ & _ & _ & _ & Hdom).
  split.
  - apply not_elem_of_dom. rewrite Hdom, !elem_of_union, !elem_of_singleton.
    intros [[Heq|Heq]|Heq]; discriminate Heq.
  - destruct (X17_get_authentication (delete "password" example_auth))
      as (_ & Herr & _).
    destruct (get_authentication (delete "password" example_auth))
      as [e|auth] eqn:Hga; [|discriminate Hga].
    destruct (Herr e eq_refl) as (missing & -> & _). reflexivity.
Defined.

Example sql_cmd_example :
  sql_cmd nat (λ _, "2024-01-31") (Some 0) None
  = "SELECT Id, KnowledgeArticleId, Title, Summary FROM Knowledge__kav WHERE LastModifiedDate >= 2024-01-31T00:00:00Z AND Knowledge_1_Approval_Status__c = 'Approval Complete' AND PublishStatus = 'Online'".
Proof. reflexivity. Qed.

End kb_extras_examples.
